(** * UglifyEsPlugin (src/index.js): a shallow embedding and its properties

    The plugin is one JavaScript class.  Its methods read the plugin
    options, mutate the host's compilation object (the asset map and the
    error and warning arrays) and the asset objects themselves, and may
    throw.  The embedding keeps that shape: every method is a function in a
    state-and-exception monad over an explicit store of source objects, and
    the collaborators that are not part of the repository (the minifier, the
    regular-expression engine, the source-map consumer, webpack's file
    matcher) are fields of one interface, [Host].  The method [apply], which
    registers [_compile] with the host, is not modelled. *)

From Stdlib Require Import Ascii String.
From stdpp Require Import base option list strings gmap pretty.

Open Scope string_scope.

(** ** JavaScript strings and coercions *)

(** The line feed written [\n] in the source. *)
Definition LF : string := String (ascii_of_nat 10) EmptyString.

(** The double-quote character (it occurs in the banner template). *)
Definition DQUOTE : string := String (ascii_of_nat 34) EmptyString.

(** [if (s)] on a string: every string but the empty one is truthy. *)
Definition truthy_str (s : string) : bool :=
  match s with EmptyString => false | String _ _ => true end.

(** [if (n)] on a number. *)
Definition truthy_num (n : nat) : bool :=
  match n with 0 => false | S _ => true end.

(** What [+] appends for a string property that may be absent. *)
Definition str_of (o : option string) : string :=
  match o with Some s => s | None => "undefined" end.

(** What [+] appends for a numeric property that may be absent. *)
Definition num_of (o : option nat) : string :=
  match o with Some n => pretty n | None => "undefined" end.

(** [array.join(sep)]. *)
Definition join (sep : string) (l : list string) : string := String.concat sep l.

(** ** Thrown values

    The catch handler reads five properties of whatever was thrown:
    [line], [col], [message], [msg] and [stack].  A thrown value is taken
    to be one that has properties: an object, or a primitive other than
    [null] and [undefined], on which an absent property reads as
    [undefined]. *)

Record Exn := mkExn {
  e_line : option nat;
  e_col : option nat;
  e_message : option string;
  e_msg : option string;
  e_stack : option string
}.

Inductive outcome (A : Type) : Type :=
| Ok (a : A)
| Throw (e : Exn).
Arguments Ok {A} a.
Arguments Throw {A} e.

#[global] Instance outcome_ret : MRet outcome := fun A a => Ok a.
#[global] Instance outcome_bind : MBind outcome := fun A B f m =>
  match m with Ok a => f a | Throw e => Throw e end.

(** ** Values of the configuration *)

Record RegExp := mkRegExp { re_source : string; re_flags : string }.

(** Whether [flags] has the flag [c]. *)
Fixpoint has_flag (c : ascii) (flags : string) : bool :=
  match flags with
  | EmptyString => false
  | String c' flags' => Ascii.eqb c c' || has_flag c flags'
  end.

(** A regex without the [g] and [y] flags.  [regex.test] neither reads nor
    moves the [lastIndex] of such a regex, so its answer depends on the
    text alone. *)
Definition stateless (r : RegExp) : bool :=
  negb (has_flag "g" (re_flags r)) && negb (has_flag "y" (re_flags r)).

(** A comment token as the minifier hands it to [output.comments]. *)
Record Comment := mkComment { c_type : string; c_value : string }.

(** The AST node argument is passed through untouched. *)
Definition AstNode := nat.

Definition Predicate : Type := AstNode -> Comment -> outcome bool.

(** A predicate spec, by the cases [typeof] tells apart: boolean, function,
    string, and the rest: a RegExp or another object with a [test] method
    ([SRegExp]), and any value without one ([SOther]). *)
Inductive Spec :=
| SBool (b : bool)
| SFun (f : Predicate)
| SStr (s : string)
| SRegExp (r : RegExp)
| SOther.

(** [extractComments.filename]: absent, a string, or a function of the
    source file name. *)
Inductive Filename :=
| FnAbsent
| FnStr (s : string)
| FnFun (f : string -> string).

(** [extractComments.banner]: absent, [false], a string, or a function of
    the sidecar name. *)
Inductive Banner :=
| BnAbsent
| BnFalse
| BnStr (s : string)
| BnFun (f : string -> string).

Record ExtractObject := mkExtractObject {
  condition : option Spec;
  filename : Filename;
  banner : Banner
}.

(** [options.extractComments]. *)
Inductive ExtractSpec :=
| EUndefined
| EBool (b : bool)
| EStr (s : string)
| ERegExp (r : RegExp)
| EObj (o : ExtractObject).

(** A value of [test], [include] or [exclude]. *)
Inductive Matcher :=
| MRegExp (r : RegExp)
| MStr (s : string).

(** The three properties of the options that
    [ModuleFilenameHelpers.matchObject] looks at. *)
Record Selection := mkSelection {
  sel_test : option Matcher;
  sel_include : option Matcher;
  sel_exclude : option Matcher
}.

(** [this._options] after the constructor. *)
Record Options := mkOptions {
  test : option Matcher;
  include : option Matcher;
  exclude : option Matcher;
  warningFilter : string -> bool;
  sourceMap : bool;
  mangle : bool;
  toplevel : bool;
  comments : Spec;
  beautify : option bool;
  output_comments : option Spec;   (* [options.output.comments], when given *)
  output_beautify : option bool;   (* [options.output.beautify], when given *)
  extractComments : ExtractSpec
}.

(** What the caller may pass to the constructor: every field optional. *)
Record UserOptions := mkUserOptions {
  u_test : option Matcher;
  u_include : option Matcher;
  u_exclude : option Matcher;
  u_warningFilter : option (string -> bool);
  u_sourceMap : option bool;
  u_mangle : option bool;
  u_toplevel : option bool;
  u_comments : option Spec;
  u_beautify : option bool;
  u_output_comments : option Spec;
  u_output_beautify : option bool;
  u_extractComments : ExtractSpec
}.

(** [constructor(options = {})]: the defaults, overridden field by field. *)
Definition constructor (options : UserOptions) : Options :=
  {| test := Some (default (MRegExp (mkRegExp "\.js($|\?)" "i")) (u_test options));
     include := u_include options;
     exclude := u_exclude options;
     warningFilter := default (fun _ => true) (u_warningFilter options);
     sourceMap := default true (u_sourceMap options);
     mangle := default true (u_mangle options);
     toplevel := default false (u_toplevel options);
     comments := default (SRegExp (mkRegExp "^\**!|@preserve|@license" EmptyString))
                         (u_comments options);
     beautify := u_beautify options;
     output_comments := u_output_comments options;
     output_beautify := u_output_beautify options;
     extractComments := u_extractComments options |}.

(** The local [output] object of [_processFile]. *)
Record Output := mkOutput { out_comments : Spec; out_beautify : option bool }.

(** The second argument of [uglify.minify]. *)
Record MinifyOptions := mkMinifyOptions {
  mo_mangle : bool;
  mo_toplevel : bool;
  mo_sourceMap : bool
}.

(** The object [uglify.minify] returns, by the two properties that tell a
    success from a failure.  The minifier reports a failure of its own, a
    syntax error in the input for one, in [error] and returns; [code] is
    then [undefined]. *)
Record MinifyResult := mkMinifyResult {
  r_code : option string;
  r_error : option Exn
}.

(** The result that carries [code]. *)
Definition minified (code : string) : MinifyResult :=
  {| r_code := Some code; r_error := None |}.

(** The result that carries [error] and no [code]. *)
Definition reported (error : Exn) : MinifyResult :=
  {| r_code := None; r_error := Some error |}.

(** ** Source objects and the compilation *)

(** Objects have identity: an asset is an address in the store. *)
Abbreviation ref := nat.

(** The names every object inherits from [Object.prototype]. *)
Definition Object_prototype : list string :=
  ["constructor"; "__defineGetter__"; "__defineSetter__"; "hasOwnProperty";
   "__lookupGetter__"; "__lookupSetter__"; "isPrototypeOf";
   "propertyIsEnumerable"; "toString"; "valueOf"; "__proto__";
   "toLocaleString"].

Definition inherited (name : string) : bool :=
  bool_decide (name ∈ Object_prototype).

(** A child of a [ConcatSource]: a string, another source object, or the
    value [compilation.assets] inherits under a name of [Object.prototype],
    which is a function or the prototype itself and no source object. *)
Inductive Child :=
| CStr (s : string)
| CSrc (r : ref)
| CInherited (name : string).

(** A source object the host put there: what each accessor returns or
    throws, and whether the object has a [sourceAndMap] method at all. *)
Record HostAsset := mkHostAsset {
  h_source : outcome string;
  h_map : outcome (option string);
  h_sourceAndMap : option (outcome (string * option string))
}.

(** [RawSourceUndefined] is [new RawSource(undefined)]: the value is stored
    as it is given, and [source()] returns it. *)
Inductive Body :=
| RawSource (value : string)
| RawSourceUndefined
| ConcatSource (children : list Child)
| HostSource (h : HostAsset).

(** [new RawSource(value)] for a value that may be [undefined]. *)
Definition new_RawSource (value : option string) : Body :=
  match value with
  | Some v => RawSource v
  | None => RawSourceUndefined
  end.

(** A source object with the marker property the plugin attaches. *)
Record Obj := mkObj { body : Body; __UglifyJsPlugin : option ref }.

(** A result of [sourceMap.originalPositionFor]. *)
Record OriginalPosition := mkOriginalPosition {
  op_source : option string;
  op_line : option nat;
  op_column : option nat
}.

(** A [SourceMapConsumer], by its one method used here. *)
Definition Consumer : Type := nat -> option nat -> OriginalPosition.

(** Calls that leave the plugin, in the order they are made. *)
Inductive Event :=
| CallSource (r : ref)
| CallMap (r : ref)
| CallSourceAndMap (r : ref)
| NewSourceMapConsumer (m : option string)
| CallMinify (input : option string) (o : MinifyOptions)
| CallCallback.

(** The store, the fields of [compilation] the plugin touches, and the
    calls made so far.  [assets] holds the own properties of
    [compilation.assets]; the names it inherits are those of
    [Object_prototype]. *)
Record State := mkState {
  heap : list Obj;
  assets : gmap string ref;
  errors : list string;
  warnings : list string;
  additionalChunkAssets : list string;
  trace : list Event
}.

Record Chunk := mkChunk { files : list string }.

(** ** The collaborators outside the repository *)

Class Host := mkHost {
  (** [uglify.minify(input, options)]: the object it returns, or what the
      call throws.  The input is what [source()] gave, [None] for
      [undefined]. *)
  minify : option string -> MinifyOptions -> outcome MinifyResult;
  (** [new SourceMapConsumer(map)]. *)
  new_SourceMapConsumer : option string -> outcome Consumer;
  (** [new RegExp(pattern)]: a [SyntaxError] on a malformed pattern. *)
  new_RegExp : string -> outcome RegExp;
  (** [regex.test(text)] on a regex whose [lastIndex] is 0.  That is every
      call on a [stateless] regex.  With the [g] or the [y] flag a call
      that matches moves [lastIndex], and the next call starts there: for
      such a regex this is the answer of a call made at [lastIndex] 0, the
      first one for instance. *)
  RegExp_test : RegExp -> string -> bool;
  (** [ModuleFilenameHelpers.matchObject(options, file)]. *)
  matchObject : Selection -> string -> bool;
  (** The map webpack-sources computes for a [ConcatSource]. *)
  ConcatSource_map : list Child -> option string;
  (** The [stack] text the engine gives an error with this first line. *)
  stack_of : string -> string;
  (** How deep calls may nest before the engine throws a [RangeError]. *)
  stack_limit : nat
}.

(** ** The monad: a state, and a result or a thrown value

    A throw keeps the state: what was mutated before it stays mutated. *)

Definition M (A : Type) : Type := State -> outcome A * State.

#[global] Instance M_ret : MRet M := fun A a s => (Ok a, s).
#[global] Instance M_bind : MBind M := fun A B f m s =>
  match m s with
  | (Ok a, s') => f a s'
  | (Throw e, s') => (Throw e, s')
  end.

Definition throw {A} (e : Exn) : M A := fun s => (Throw e, s).

Definition lift {A} (o : outcome A) : M A := fun s => (o, s).

Definition gets {A} (f : State -> A) : M A := fun s => (Ok (f s), s).

Definition modify (f : State -> State) : M unit := fun s => (Ok tt, f s).

(** [try { body } catch (err) { handler(err) }]. *)
Definition try_catch {A} (body : M A) (handler : Exn -> M A) : M A := fun s =>
  match body s with
  | (Ok a, s') => (Ok a, s')
  | (Throw e, s') => handler e s'
  end.

(** [array.forEach(f)]: a throw from [f] ends the loop. *)
Fixpoint forEach {A} (f : A -> M unit) (l : list A) : M unit :=
  match l with
  | [] => mret tt
  | x :: l' => f x ;; forEach f l'
  end.

Section Plugin.
Context `{Host}.

(** *** Errors the engine raises itself *)

Definition engine_error (name message : string) : Exn :=
  {| e_line := None; e_col := None;
     e_message := Some message; e_msg := None;
     e_stack := Some (stack_of (name ++ ": " ++ message)) |}.

Definition ReferenceError (x : string) : Exn :=
  engine_error "ReferenceError" (x ++ " is not defined").

Definition TypeError (message : string) : Exn := engine_error "TypeError" message.

Definition RangeError : Exn :=
  engine_error "RangeError" "Maximum call stack size exceeded".

(** Reading an identifier that neither the method nor the module binds.
    The module binds [SourceMapConsumer], [SourceMapSource], [RawSource],
    [ConcatSource], [RequestShortener], [ModuleFilenameHelpers], [uglify]
    and [UglifyEsPlugin] and nothing else; a class body is strict code. *)
Definition free_var {A} (x : string) : outcome A := Throw (ReferenceError x).

(** *** State primitives *)

Definition set_heap (h : list Obj) (s : State) : State :=
  {| heap := h; assets := assets s; errors := errors s; warnings := warnings s;
     additionalChunkAssets := additionalChunkAssets s; trace := trace s |}.

Definition set_assets (a : gmap string ref) (s : State) : State :=
  {| heap := heap s; assets := a; errors := errors s; warnings := warnings s;
     additionalChunkAssets := additionalChunkAssets s; trace := trace s |}.

Definition set_errors (e : list string) (s : State) : State :=
  {| heap := heap s; assets := assets s; errors := e; warnings := warnings s;
     additionalChunkAssets := additionalChunkAssets s; trace := trace s |}.

Definition set_warnings (w : list string) (s : State) : State :=
  {| heap := heap s; assets := assets s; errors := errors s; warnings := w;
     additionalChunkAssets := additionalChunkAssets s; trace := trace s |}.

Definition set_trace (t : list Event) (s : State) : State :=
  {| heap := heap s; assets := assets s; errors := errors s; warnings := warnings s;
     additionalChunkAssets := additionalChunkAssets s; trace := t |}.

(** Record an outgoing call. *)
Definition emit (ev : Event) : M unit :=
  modify (fun s => set_trace (trace s ++ [ev]) s).

(** [new C(...)]: a fresh object with no marker. *)
Definition alloc (b : Body) : M ref := fun s =>
  (Ok (length (heap s)), set_heap (heap s ++ [mkObj b None]) s).

(** Follow a reference. *)
Definition deref (r : ref) : M Obj := fun s =>
  match heap s !! r with
  | Some o => (Ok o, s)
  | None => (Throw (TypeError "Cannot read property of undefined"), s)
  end.

(** [compilation.assets[name]], when the object has the name itself.
    [None] is every other case: [undefined], or for a name of
    [Object_prototype] what is inherited under it. *)
Definition get_asset (name : string) : M (option ref) :=
  gets (fun s => assets s !! name).

(** [compilation.assets[name] = r]. *)
Definition set_asset (name : string) (r : ref) : M unit :=
  modify (fun s => set_assets (<[name := r]> (assets s)) s).

(** [compilation.errors.push(new Error(message))]. *)
Definition push_error (message : string) : M unit :=
  modify (fun s => set_errors (errors s ++ [message]) s).

(** [compilation.warnings.push(new Error(message))]. *)
Definition push_warning (message : string) : M unit :=
  modify (fun s => set_warnings (warnings s ++ [message]) s).

(** [asset.__UglifyJsPlugin = r]. *)
Definition set_marker (asset r : ref) : M unit :=
  o ← deref asset;
  modify (fun s => set_heap (<[asset := mkObj (body o) (Some r)]> (heap s)) s).

(** *** The methods of source objects (webpack-sources) *)

(** The text of the children of a [ConcatSource], given what [source()]
    returns for a source object: each child that is not a string is asked
    for its [source()], and the results are appended with [+], where
    [undefined] reads as the text [undefined]. *)
Fixpoint children_text (text : ref -> outcome (option string)) (cs : list Child)
  : outcome string :=
  match cs with
  | [] => Ok EmptyString
  | CStr s :: cs' => t ← children_text text cs'; mret (s ++ t)
  | CSrc r :: cs' =>
      a ← text r; t ← children_text text cs'; mret (str_of a ++ t)
  | CInherited _ :: _ => Throw (TypeError "child.source is not a function")
  end.

(** [source.source()], [None] for [undefined], with [fuel] bounding how
    deep [ConcatSource]s nest: each level is a call on top of the last
    one. *)
Fixpoint source_text (fuel : nat) (h : list Obj) (r : ref)
  : outcome (option string) :=
  match h !! r with
  | None => Throw (TypeError "Cannot read property 'source' of undefined")
  | Some o =>
      match body o with
      | RawSource v => Ok (Some v)
      | RawSourceUndefined => Ok None
      | HostSource a => v ← h_source a; mret (Some v)
      | ConcatSource cs =>
          match fuel with
          | 0 => Throw RangeError
          | S n => t ← children_text (source_text n h) cs; mret (Some t)
          end
      end
  end.

(** [source.map()]. *)
Definition source_map (h : list Obj) (r : ref) : outcome (option string) :=
  match h !! r with
  | None => Throw (TypeError "Cannot read property 'map' of undefined")
  | Some o =>
      match body o with
      | RawSource _ | RawSourceUndefined => Ok None
      | HostSource a => h_map a
      | ConcatSource cs => Ok (ConcatSource_map cs)
      end
  end.

(** Whether the object has a [sourceAndMap] method. *)
Definition has_sourceAndMap (o : Obj) : bool :=
  match body o with
  | RawSource _ | RawSourceUndefined | ConcatSource _ => true
  | HostSource a => bool_decide (is_Some (h_sourceAndMap a))
  end.

(** [source.sourceAndMap()]. *)
Definition source_and_map (h : list Obj) (r : ref)
  : outcome (option string * option string) :=
  match h !! r with
  | None => Throw (TypeError "Cannot read property 'sourceAndMap' of undefined")
  | Some o =>
      match body o with
      | HostSource a =>
          match h_sourceAndMap a with
          | Some res => '(t, m) ← res; mret (Some t, m)
          | None => Throw (TypeError "asset.sourceAndMap is not a function")
          end
      | _ => t ← source_text stack_limit h r; m ← source_map h r; mret (t, m)
      end
  end.

(** Answer a method call from the store. *)
Definition answer {A} (f : list Obj -> outcome A) : M A := fun s => (f (heap s), s).

(** The three accessors as calls: recorded, then answered from the store. *)
Definition call_source (r : ref) : M (option string) :=
  emit (CallSource r) ;; answer (fun h => source_text stack_limit h r).

Definition call_map (r : ref) : M (option string) :=
  emit (CallMap r) ;; answer (fun h => source_map h r).

Definition call_sourceAndMap (r : ref) : M (option string * option string) :=
  emit (CallSourceAndMap r) ;; answer (fun h => source_and_map h r).

(** ** The plugin's methods *)

(** *** [_processSourceMap(asset)] (lines 161-180) *)

Definition _processSourceMap (opts : Options) (asset : ref)
  : M (option string) :=
  (* if (!this._options.sourceMap) input = asset.source(); *)
  _ ← (if negb (sourceMap opts)
       then input ← call_source asset; mret (Some input)
       else mret None);
  o ← deref asset;
  '(inputSourceMap, input) ←
    (if has_sourceAndMap o
     then sourceAndMap ← call_sourceAndMap asset;
          mret (sourceAndMap.2, sourceAndMap.1)
     else inputSourceMap ← call_map asset;
          input ← call_source asset;
          mret (inputSourceMap, input));
  emit (NewSourceMapConsumer inputSourceMap) ;;
  _ ← lift (new_SourceMapConsumer inputSourceMap);
  mret input.

(** *** [_processExtractComments(output)] (lines 102-159) *)

(** [options.extractComments] read as a predicate spec. *)
Definition spec_of_extract (e : ExtractSpec) : Spec :=
  match e with
  | EBool b => SBool b
  | EStr s => SStr s
  | ERegExp r => SRegExp r
  | EUndefined | EObj _ => SOther
  end.

(** [Object.prototype.hasOwnProperty.call(e, "condition")]. *)
Definition has_condition (e : ExtractSpec) : outcome bool :=
  match e with
  | EUndefined => Throw (TypeError "Cannot convert undefined or null to object")
  | EObj o => Ok (bool_decide (is_Some (condition o)))
  | _ => Ok false
  end.

(** [e.condition]. *)
Definition condition_of (e : ExtractSpec) : outcome Spec :=
  match e with
  | EUndefined => Throw (TypeError "Cannot read property 'condition' of undefined")
  | EObj o => Ok (default SOther (condition o))
  | _ => Ok SOther
  end.

(** Lines 104-117: fill the local [condition] object; the result is the
    pair [(condition.preserve, condition.extract)].  The test on line 105
    reads [this._options]; lines 108, 109 and 112 read [options]. *)
Definition resolve_conditions (opts : Options) (output : Output)
  : outcome (Spec * Spec) :=
  match extractComments opts with
  | EStr _ | ERegExp _ =>
      let preserve := out_comments output in
      options ← free_var "options";
      mret (preserve, spec_of_extract (extractComments options))
  | _ =>
      options ← free_var "options";
      own ← has_condition (extractComments options);
      if own : bool then
        let preserve := out_comments output in
        options ← free_var "options";
        extract ← condition_of (extractComments options);
        mret (preserve, extract)
      else
        mret (SBool false, out_comments output)
  end.

(** Lines 121-142, the body of the [forEach] over the two keys: the
    [switch] on [typeof condition[key]] that turns a spec into a function.
    The function built from a regex is given by [RegExp_test]: for a
    [stateless] regex that is the function; for a regex with the [g] or
    the [y] flag it is what a call made at [lastIndex] 0 answers. *)
Definition normalize (spec : Spec) : outcome Predicate :=
  match spec with
  | SBool b => mret (fun _ _ => Ok b)
  | SFun f => mret f
  | SStr s =>
      if String.eqb s "all" then mret (fun _ _ => Ok true)
      else regex ← new_RegExp s;
           mret (fun _ comment => Ok (RegExp_test regex (c_value comment)))
  | SRegExp regex =>
      mret (fun _ comment => Ok (RegExp_test regex (c_value comment)))
  | SOther =>
      mret (fun _ _ => Throw (TypeError "regex.test is not a function"))
  end.

(** Lines 149-151: the comment with the delimiters of its kind. *)
Definition format_comment (comment : Comment) : string :=
  if String.eqb (c_type comment) "comment2"
  then "/*" ++ c_value comment ++ "*/"
  else "//" ++ c_value comment.

(** A function installed as [output.comments]: it answers for one comment
    and may push onto the shared [extractedComments] array. *)
Definition Visitor : Type :=
  AstNode -> Comment -> list string -> outcome bool * list string.

(** Lines 147-156. *)
Definition visitor (extract preserve : Predicate) : Visitor :=
  fun astNode comment extractedComments =>
    match extract astNode comment with
    | Throw e => (Throw e, extractedComments)
    | Ok true =>
        (preserve astNode comment,
         (extractedComments ++ [format_comment comment])%list)
    | Ok false => (preserve astNode comment, extractedComments)
    end.

(** The minifier calling the visitor once per comment, in order: the
    decisions made and the array afterwards. *)
Fixpoint visit_all (v : Visitor) (astNode : AstNode) (cs : list Comment)
  (extractedComments : list string) : outcome (list bool) * list string :=
  match cs with
  | [] => (Ok [], extractedComments)
  | c :: cs' =>
      match v astNode c extractedComments with
      | (Throw e, sink) => (Throw e, sink)
      | (Ok keep, sink) =>
          match visit_all v astNode cs' sink with
          | (Throw e, sink') => (Throw e, sink')
          | (Ok keeps, sink') => (Ok (keep :: keeps), sink')
          end
      end
  end.

(** The whole method: the array it returns (still empty) and the function
    it stores in [output.comments]. *)
Definition _processExtractComments (opts : Options) (output : Output)
  : outcome (list string * Visitor) :=
  let extractedComments : list string := [] in
  '(preserve, extract) ← resolve_conditions opts output;
  preserve ← normalize preserve;
  extract ← normalize extract;
  mret (extractedComments, visitor extract preserve).

(** *** [_processExeption(compilation, err, file, sourceMap)] (lines 182-198) *)

Definition _processExeption (err : Exn) (file : string)
  (sourceMap : option Consumer) : M unit :=
  match e_line err with
  | Some (S _ as line) =>
      (* const original = sourceMap && sourceMap.originalPositionFor(...) *)
      let original :=
        match sourceMap with
        | Some consumer => Some (consumer line (e_col err))
        | None => None
        end in
      match original with
      | Some (mkOriginalPosition (Some (String _ _ as source)) oline ocolumn) =>
          requestShortener ← lift (free_var "requestShortener");
          push_error (file ++ " from UglifyJs" ++ LF ++ str_of (e_message err)
                      ++ " [" ++ (requestShortener : string -> string) source
                      ++ ":" ++ num_of oline ++ "," ++ num_of ocolumn
                      ++ "][" ++ file ++ ":" ++ pretty line
                      ++ "," ++ num_of (e_col err) ++ "]")
      | _ =>
          push_error (file ++ " from UglifyJs" ++ LF ++ str_of (e_message err)
                      ++ " [" ++ file ++ ":" ++ pretty line
                      ++ "," ++ num_of (e_col err) ++ "]")
      end
  | _ =>
      match e_msg err with
      | Some (String _ _ as msg) =>
          push_error (file ++ " from UglifyJs" ++ LF ++ msg)
      | _ =>
          push_error (file ++ " from UglifyJs" ++ LF ++ str_of (e_stack err))
      end
  end.

(** *** [_writeExtractedComments(compilation, extractedComments)] (lines 200-231) *)

(** [this._options.extractComments.filename]. *)
Definition get_filename (e : ExtractSpec) : outcome Filename :=
  match e with
  | EUndefined => Throw (TypeError "Cannot read property 'filename' of undefined")
  | EObj o => Ok (filename o)
  | _ => Ok FnAbsent
  end.

(** [this._options.extractComments.banner]. *)
Definition get_banner (e : ExtractSpec) : outcome Banner :=
  match e with
  | EUndefined => Throw (TypeError "Cannot read property 'banner' of undefined")
  | EObj o => Ok (banner o)
  | _ => Ok BnAbsent
  end.

(** Lines 201-204.  The method has two parameters, [compilation] and
    [extractedComments]; [file] is not one of them. *)
Definition comments_file (e : ExtractSpec) : outcome string :=
  fn ← get_filename e;
  match fn with
  | FnFun commentsFile => file ← free_var "file"; mret (commentsFile file)
  | FnStr (String _ _ as commentsFile) => mret commentsFile
  | _ => file ← free_var "file"; mret (file ++ ".LICENSE")
  end.

(** Lines 206-219: install the batch under the sidecar name, or append it
    to what is there.  The test of line 207 is [in], which finds the names
    of [Object_prototype] as well as the object's own; what is read under
    such a name is no [ConcatSource], so line 213 wraps it.  (An assignment
    to the name [__proto__] makes the value the prototype of
    [compilation.assets] rather than a property; a later read of that name
    returns it all the same, which is all the map records of it.) *)
Definition write_sidecar (commentsFile : string) (extractedComments : list string)
  : M unit :=
  commentsSource ← alloc (RawSource (join (LF ++ LF) extractedComments ++ LF));
  existing ← get_asset commentsFile;
  match existing with
  | Some r =>
      h ← gets heap;
      match h !! r with
      | Some (mkObj (ConcatSource cs) mark) =>
          (* .add('\n'); .add(commentsSource) *)
          modify (set_heap
            (<[r := mkObj (ConcatSource (cs ++ [CStr LF; CSrc commentsSource])) mark]> h))
      | _ =>
          c ← alloc (ConcatSource [CSrc r; CStr LF; CSrc commentsSource]);
          set_asset commentsFile c
      end
  | None =>
      if inherited commentsFile then
        c ← alloc (ConcatSource
                     [CInherited commentsFile; CStr LF; CSrc commentsSource]);
        set_asset commentsFile c
      else set_asset commentsFile commentsSource
  end.

(** Lines 222-230.  [outputSource] is a local of [_processFile], not of
    this method. *)
Definition write_banner (e : ExtractSpec) (commentsFile : string) : M unit :=
  b ← lift (get_banner e);
  match b with
  | BnFalse => mret tt
  | _ =>
      let banner :=
        match b with
        | BnFun f => f commentsFile
        | BnStr (String _ _ as text) => text
        | _ => "For license information please see " ++ commentsFile
        end in
      if truthy_str banner then
        outputSource ← lift (free_var "outputSource");
        _ ← alloc (ConcatSource
                     [CStr ("/*! " ++ banner ++ " */" ++ LF ++ DQUOTE);
                      CSrc outputSource]);
        lift (free_var "outputSource")
      else mret tt
  end.

Definition _writeExtractedComments (opts : Options)
  (extractedComments : list string) : M unit :=
  commentsFile ← lift (comments_file (extractComments opts));
  write_sidecar commentsFile extractedComments ;;
  write_banner (extractComments opts) commentsFile.

(** *** [_processFile(compilation, file)] (lines 54-100) *)

(** Truthiness of [this._options.extractComments]. *)
Definition truthy_extract (e : ExtractSpec) : bool :=
  match e with
  | EUndefined => false
  | EBool b => b
  | EStr s => truthy_str s
  | ERegExp _ | EObj _ => true
  end.

(** What a pass over a name without an asset throws.  Line 57 reads a
    property of [undefined].  Under a name of [Object_prototype] line 56
    finds the inherited value instead, which has no marker and none of the
    three accessors: the first accessor call of [_processSourceMap] fails,
    on line 166 or on line 174. *)
Definition no_asset (opts : Options) (file : string) : string :=
  if inherited file then
    if sourceMap opts then "asset.map is not a function"
    else "asset.source is not a function"
  else "Cannot read property '__UglifyJsPlugin' of undefined".

Definition _processFile (opts : Options) (file : string) : M unit :=
  let warnings : list string := [] in
  asset ← get_asset file;
  match asset with
  | None => throw (TypeError (no_asset opts file))
  | Some asset =>
      o ← deref asset;
      match __UglifyJsPlugin o with
      | Some cached => set_asset file cached
      | None =>
          let output :=
            {| out_comments := default (comments opts) (output_comments opts);
               out_beautify :=
                 match output_beautify opts with
                 | Some b => Some b
                 | None => beautify opts
                 end |} in
          input ← _processSourceMap opts asset;
          let minifyOptions :=
            {| mo_mangle := mangle opts; mo_toplevel := toplevel opts;
               mo_sourceMap := sourceMap opts |} in
          emit (CallMinify input minifyOptions) ;;
          result ← lift (minify input minifyOptions);
          let compressedCode := r_code result in
          extractedComments ←
            (if truthy_extract (extractComments opts)
             then r ← lift (_processExtractComments opts output); mret r.1
             else mret []);
          outputSource ← alloc (new_RawSource compressedCode);
          (if (0 <? length extractedComments)%nat
           then _writeExtractedComments opts extractedComments
           else mret tt) ;;
          set_asset file outputSource ;;
          set_marker asset outputSource ;;
          if (0 <? length warnings)%nat
          then push_warning (file ++ " from UglifyJs" ++ LF ++ " " ++ join LF warnings)
          else mret tt
      end
  end.

(** *** [_compile(compilation, chunks, callback)] (lines 33-52) *)

(** The body of the [forEach] on line 41.  The call on line 46 passes three
    arguments, so the handler's [sourceMap] is [undefined].  Lines 42 and 48
    save and restore [uglify.AST_Node.warn_function], a variable of the
    minifier's module that the plugin never assigns; it is not part of the
    state here. *)
Definition compile_file (opts : Options) (file : string) : M unit :=
  try_catch (_processFile opts file)
            (fun err => _processExeption err file None).

(** Lines 34-37. *)
Definition candidate_files (chunks : list Chunk) (additional : list string)
  : list string :=
  fold_left (fun all chunk => all ++ files chunk)%list chunks additional.

(** What [matchObject] reads of [this._options]. *)
Definition selection (opts : Options) : Selection :=
  {| sel_test := test opts; sel_include := include opts;
     sel_exclude := exclude opts |}.

Definition _compile (opts : Options) (chunks : list Chunk) : M unit :=
  additional ← gets additionalChunkAssets;
  let files := candidate_files chunks additional in
  forEach (compile_file opts)
          (filter (fun file => matchObject (selection opts) file) files) ;;
  emit CallCallback.

End Plugin.

(** ** Reading a result *)

(** A state that differs from [s] in its call trace at most. *)
Definition same_but_trace (s s' : State) : Prop :=
  heap s' = heap s /\ assets s' = assets s /\ errors s' = errors s /\
  warnings s' = warnings s /\ additionalChunkAssets s' = additionalChunkAssets s.

(** A computation all of whose runs relate the state before to the state
    after by [R], whether it returns or throws. *)
Definition preserves {A} (R : State -> State -> Prop) (m : M A) : Prop :=
  forall s, R s (m s).2.

(** The warnings array is left as it was. *)
Definition keeps_warnings (s s' : State) : Prop := warnings s' = warnings s.

(** The state after line 95 of [_processFile]: the new source object is in
    the store, installed under [file], and recorded on the old asset
    object. *)
Definition install_source (file : string) (asset : ref) (o : Obj)
  (outputSource : Body) (s : State) : State :=
  let out := length (heap s) in
  set_heap (<[asset := mkObj (body o) (Some out)]>
              (heap s ++ [mkObj outputSource None])%list)
           (set_assets (<[file := out]> (assets s)) s).

(** The same when the minifier returned code. *)
Definition install (file : string) (asset : ref) (o : Obj)
  (compressedCode : string) (s : State) : State :=
  install_source file asset o (RawSource compressedCode) s.

(** The number of minifier invocations recorded in a trace. *)
Definition is_minify (ev : Event) : bool :=
  match ev with CallMinify _ _ => true | _ => false end.

Definition minify_calls (t : list Event) : nat :=
  length (filter (fun ev => is_minify ev) t).

(** The options with another value of [extractComments]. *)
Definition with_extractComments (e : ExtractSpec) (opts : Options) : Options :=
  {| test := test opts; include := include opts; exclude := exclude opts;
     warningFilter := warningFilter opts;
     sourceMap := sourceMap opts; mangle := mangle opts;
     toplevel := toplevel opts; comments := comments opts;
     beautify := beautify opts; output_comments := output_comments opts;
     output_beautify := output_beautify opts; extractComments := e |}.

(** The options with another value of [sourceMap]. *)
Definition with_sourceMap (b : bool) (opts : Options) : Options :=
  {| test := test opts; include := include opts; exclude := exclude opts;
     warningFilter := warningFilter opts;
     sourceMap := b; mangle := mangle opts;
     toplevel := toplevel opts; comments := comments opts;
     beautify := beautify opts; output_comments := output_comments opts;
     output_beautify := output_beautify opts;
     extractComments := extractComments opts |}.

(** The options with another warning filter. *)
Definition with_warningFilter (g : string -> bool) (opts : Options) : Options :=
  {| test := test opts; include := include opts; exclude := exclude opts;
     warningFilter := g; sourceMap := sourceMap opts;
     mangle := mangle opts; toplevel := toplevel opts; comments := comments opts;
     beautify := beautify opts; output_comments := output_comments opts;
     output_beautify := output_beautify opts;
     extractComments := extractComments opts |}.

(** The message the catch handler of [_compile] records for a failure. *)
Definition failure_message (err : Exn) (file : string) : string :=
  match e_line err with
  | Some (S _ as line) =>
      file ++ " from UglifyJs" ++ LF ++ str_of (e_message err)
      ++ " [" ++ file ++ ":" ++ pretty line ++ "," ++ num_of (e_col err) ++ "]"
  | _ =>
      match e_msg err with
      | Some (String _ _ as msg) => file ++ " from UglifyJs" ++ LF ++ msg
      | _ => file ++ " from UglifyJs" ++ LF ++ str_of (e_stack err)
      end
  end.

(** One batch of a sidecar file: the comments of one source file. *)
Definition batch (extractedComments : list string) : string :=
  join (LF ++ LF) extractedComments ++ LF.

(** The object passed to [uglify.minify] on lines 72-76. *)
Definition minify_options (opts : Options) : MinifyOptions :=
  {| mo_mangle := mangle opts; mo_toplevel := toplevel opts;
     mo_sourceMap := sourceMap opts |}.

(** A call that reads an asset or builds a consumer. *)
Definition is_accessor (ev : Event) : bool :=
  match ev with
  | CallSource _ | CallMap _ | CallSourceAndMap _ | NewSourceMapConsumer _ => true
  | CallMinify _ _ | CallCallback => false
  end.

Definition is_callback (ev : Event) : bool :=
  match ev with CallCallback => true | _ => false end.

(** The number of times the host's continuation was called. *)
Definition callback_calls (t : list Event) : nat :=
  length (filter (fun ev => is_callback ev) t).

(** The trace grows by accessor calls only. *)
Definition reads_only (s s' : State) : Prop :=
  same_but_trace s s' /\
  exists t, trace s' = (trace s ++ t)%list /\ forallb is_accessor t = true.

(** The trace grows, and by no call of the continuation. *)
Definition no_callback (s s' : State) : Prop :=
  exists t, trace s' = (trace s ++ t)%list /\ callback_calls t = 0.

(** Every source object that was there is still there with the body it
    had, and with the marker it had if it had one. *)
Definition heap_grows (s s' : State) : Prop :=
  forall r o, heap s !! r = Some o ->
    exists o', heap s' !! r = Some o' /\ body o' = body o /\
               (forall out, __UglifyJsPlugin o = Some out ->
                            __UglifyJsPlugin o' = Some out).

(** The messages recorded so far are still there, in front. *)
Definition errors_grow (s s' : State) : Prop := errors s `prefix_of` errors s'.

(** The compilation has the same asset names. *)
Definition same_names (s s' : State) : Prop := dom (assets s') = dom (assets s).

(** The asset map is the same at [name]. *)
Definition same_asset (name : string) (s s' : State) : Prop :=
  assets s' !! name = assets s !! name.

(** The text of a source object that is not a [ConcatSource], when reading
    it does not throw. *)
Definition plain_text (o : Obj) : option string :=
  match body o with
  | RawSource v => Some v
  | HostSource a => match h_source a with Ok v => Some v | Throw _ => None end
  | RawSourceUndefined | ConcatSource _ => None
  end.

(** [plain_children h cs t]: the children [cs] are strings and addresses of
    objects of [h] that are not [ConcatSource]s, and their texts in order
    make up [t]. *)
Inductive plain_children (h : list Obj) : list Child -> string -> Prop :=
| plain_nil : plain_children h [] EmptyString
| plain_str (s : string) (cs : list Child) (t : string) :
    plain_children h cs t -> plain_children h (CStr s :: cs) (s ++ t)
| plain_src (r : ref) (o : Obj) (v : string) (cs : list Child) (t : string) :
    h !! r = Some o -> plain_text o = Some v ->
    plain_children h cs t -> plain_children h (CSrc r :: cs) (v ++ t).

(** What is under the sidecar name reads [t]: a plain object with that
    text, or a [ConcatSource] of plain children with that text. *)
Definition sidecar_reads (s : State) (name t : string) : Prop :=
  exists r o, assets s !! name = Some r /\ heap s !! r = Some o /\
    (plain_text o = Some t \/
     exists cs, body o = ConcatSource cs /\ plain_children (heap s) cs t).

(** The options name the sidecar [name] and switch the banner off. *)
Definition sidecar_options (opts : Options) (name : string) : Prop :=
  exists o, extractComments opts = EObj o /\ filename o = FnStr name /\
            truthy_str name = true /\ banner o = BnFalse.

(** The handler was given a source map that knows the failing position. *)
Definition mapped (err : Exn) (sourceMap : option Consumer) : bool :=
  match e_line err, sourceMap with
  | Some (S _ as line), Some consumer =>
      match op_source (consumer line (e_col err)) with
      | Some source => truthy_str source
      | None => false
      end
  | _, _ => false
  end.

(** Lines 120-156 of [_processExtractComments], from the two specs on: both
    are normalized, [preserve] first, and the visitor is built. *)
Definition classify `{Host} (preserve extract : Spec) : outcome Visitor :=
  preserve ← normalize preserve;
  extract ← normalize extract;
  mret (visitor extract preserve).

(** ** A sample host, for running the plugin on concrete inputs *)

Module Sample.

(** [contains p t]: [p] occurs in [t]. *)
Fixpoint contains (p t : string) : bool :=
  String.prefix p t ||
  match t with
  | EmptyString => false
  | String _ t' => contains p t'
  end.

(** A matcher for literal patterns with an optional leading [^]. *)
Definition test_literal (r : RegExp) (t : string) : bool :=
  match re_source r with
  | String "^" p => String.prefix p t
  | p => contains p t
  end.

(** What the sample minifiers say of the one input they reject. *)
Definition parse_error : Exn :=
  mkExn (Some 1) (Some 9) (Some "Unexpected token: eof") None None.

(** A minifier that throws on one input and prefixes the others. *)
Definition sample_minify (input : option string) (o : MinifyOptions)
  : outcome MinifyResult :=
  match input with
  | Some text =>
      if String.eqb text "function(" then Throw parse_error
      else Ok (minified ("min:" ++ text))
  | None => Throw parse_error
  end.

(** A minifier that reports the failure in its result, as [uglify-es]
    does. *)
Definition reporting_minify (input : option string) (o : MinifyOptions)
  : outcome MinifyResult :=
  match input with
  | Some text =>
      if String.eqb text "function(" then Ok (reported parse_error)
      else Ok (minified ("min:" ++ text))
  | None => Ok (reported parse_error)
  end.

#[local] Instance host : Host :=
  {| minify := sample_minify;
     new_SourceMapConsumer := fun _ =>
       Ok (fun _ _ => mkOriginalPosition None None None);
     new_RegExp := fun pattern => Ok (mkRegExp pattern EmptyString);
     RegExp_test := test_literal;
     matchObject := fun _ file => contains ".js" file;
     ConcatSource_map := fun _ => None;
     stack_of := fun header => header ++ LF ++ "    at UglifyEsPlugin";
     stack_limit := 8 |}.

(** A host closer to the libraries: the minifier reports a failure in its
    result, the consumer rejects a missing map and the engine rejects an
    unbalanced pattern. *)
Definition strict_host : Host :=
  {| minify := reporting_minify;
     new_SourceMapConsumer := fun m =>
       match m with
       | Some _ => Ok (fun _ _ => mkOriginalPosition None None None)
       | None =>
           Throw (mkExn None None (Some "Cannot read property 'sections' of null")
                        None (Some "TypeError"))
       end;
     new_RegExp := fun pattern =>
       if String.eqb pattern "("
       then Throw (mkExn None None (Some "Invalid regular expression") None
                         (Some "SyntaxError"))
       else Ok (mkRegExp pattern EmptyString);
     RegExp_test := test_literal;
     matchObject := fun _ file => contains ".js" file;
     ConcatSource_map := fun _ => None;
     stack_of := fun header => header;
     stack_limit := 8 |}.

Definition options : Options := constructor
  {| u_test := None; u_include := None; u_exclude := None;
     u_warningFilter := None; u_sourceMap := None;
     u_mangle := None; u_toplevel := None; u_comments := None;
     u_beautify := None; u_output_comments := None; u_output_beautify := None;
     u_extractComments := EUndefined |}.

(** An asset of the host with both accessors. *)
Definition asset (text : string) : Obj :=
  mkObj (HostSource (mkHostAsset (Ok text) (Ok (Some "{}"))
                                 (Some (Ok (text, Some "{}"))))) None.

(** A version-3 source map without mappings; the text stands for the
    object. *)
Definition empty_map : string :=
  "{version: 3, sources: [], names: [], mappings: ''}".

(** An asset of the host with both accessors and that map. *)
Definition mapped_asset (text : string) : Obj :=
  mkObj (HostSource (mkHostAsset (Ok text) (Ok (Some empty_map))
                                 (Some (Ok (text, Some empty_map))))) None.

Definition state (h : list Obj) (a : list (string * ref)) : State :=
  {| heap := h; assets := list_to_map a; errors := []; warnings := [];
     additionalChunkAssets := []; trace := [] |}.

End Sample.

Create HintDb frame.

(** * Properties *)

(** ** Frame rules of the monad *)

Section Frame.
Context (R : State -> State -> Prop) `{!PreOrder R}.

Lemma preserves_ret {A} (a : A) : preserves R (mret a).
Proof. intros s. reflexivity. Qed.

Lemma preserves_throw {A} (e : Exn) : preserves R (throw e : M A).
Proof. intros s. reflexivity. Qed.

Lemma preserves_lift {A} (o : outcome A) : preserves R (lift o).
Proof. intros s. reflexivity. Qed.

Lemma preserves_gets {A} (f : State -> A) : preserves R (gets f).
Proof. intros s. reflexivity. Qed.

Lemma preserves_modify (f : State -> State) :
  (forall s, R s (f s)) -> preserves R (modify f).
Proof. intros Hf s. apply Hf. Qed.

Lemma preserves_bind {A B} (m : M A) (f : A -> M B) :
  preserves R m -> (forall a, preserves R (f a)) -> preserves R (m ≫= f).
Proof.
  intros Hm Hf s. unfold mbind, M_bind.
  specialize (Hm s). destruct (m s) as [[a|e] s1]; simpl in *.
  - transitivity s1; [exact Hm | apply Hf].
  - exact Hm.
Qed.

Lemma preserves_try_catch {A} (body : M A) (handler : Exn -> M A) :
  preserves R body -> (forall e, preserves R (handler e)) ->
  preserves R (try_catch body handler).
Proof.
  intros Hb Hh s. unfold try_catch.
  specialize (Hb s). destruct (body s) as [[a|e] s1]; simpl in *.
  - exact Hb.
  - transitivity s1; [exact Hb | apply Hh].
Qed.

Lemma preserves_forEach {A} (f : A -> M unit) (l : list A) :
  (forall a, preserves R (f a)) -> preserves R (forEach f l).
Proof.
  intros Hf. induction l as [|a l IH]; simpl.
  - apply preserves_ret.
  - apply preserves_bind; [apply Hf | intros _; exact IH].
Qed.

End Frame.

#[global] Instance same_but_trace_preorder : PreOrder same_but_trace.
Proof.
  split.
  - intros s. unfold same_but_trace. tauto.
  - intros s1 s2 s3 (?&?&?&?&?) (?&?&?&?&?). unfold same_but_trace.
    repeat split; congruence.
Qed.

(** The state after differs from the state before in the trace only. *)
Lemma same_but_trace_eq (s s' : State) :
  same_but_trace s s' -> s' = set_trace (trace s') s.
Proof.
  intros (?&?&?&?&?). destruct s, s'; unfold set_trace; simpl in *. congruence.
Qed.

#[global] Instance keeps_warnings_preorder : PreOrder keeps_warnings.
Proof.
  split.
  - intros s. reflexivity.
  - intros s1 s2 s3 H12 H23. unfold keeps_warnings in *. congruence.
Qed.

Lemma same_but_trace_keeps_warnings (s s' : State) :
  same_but_trace s s' -> keeps_warnings s s'.
Proof. intros (?&?&?&?&?). assumption. Qed.

#[global] Hint Resolve preserves_ret preserves_throw preserves_lift preserves_gets
  preserves_try_catch preserves_forEach : frame.

(** Split a computation along its binds and case distinctions, leaving the
    primitive steps to the hints. *)
Ltac frame :=
  repeat first
    [ solve [eauto with frame typeclass_instances]
    | apply preserves_bind; [solve [apply _] | | intros ?]
    | match goal with
      | |- preserves _ (match ?x with _ => _ end) => destruct x
      end ].

Section Primitives.
Context `{Host}.

Lemma emit_same_but_trace (ev : Event) : preserves same_but_trace (emit ev).
Proof. intros s. unfold same_but_trace. simpl. tauto. Qed.

Lemma deref_preserves R `{!PreOrder R} (r : ref) : preserves R (deref r).
Proof. intros s. unfold deref. destruct (heap s !! r); reflexivity. Qed.

Lemma answer_preserves R `{!PreOrder R} {A} (f : list Obj -> outcome A) :
  preserves R (answer f).
Proof. intros s. reflexivity. Qed.

Lemma emit_keeps_warnings (ev : Event) : preserves keeps_warnings (emit ev).
Proof. intros s. reflexivity. Qed.

Lemma alloc_keeps_warnings (b : Body) : preserves keeps_warnings (alloc b).
Proof. intros s. reflexivity. Qed.

Lemma set_asset_keeps_warnings (name : string) (r : ref) :
  preserves keeps_warnings (set_asset name r).
Proof. intros s. reflexivity. Qed.

Lemma push_error_keeps_warnings (message : string) :
  preserves keeps_warnings (push_error message).
Proof. intros s. reflexivity. Qed.

Lemma modify_heap_keeps_warnings (h : list Obj) :
  preserves keeps_warnings (modify (set_heap h)).
Proof. intros s. reflexivity. Qed.

Lemma set_marker_keeps_warnings (asset r : ref) :
  preserves keeps_warnings (set_marker asset r).
Proof.
  unfold set_marker. apply preserves_bind; [apply _ | apply deref_preserves; apply _ |].
  intros o s. reflexivity.
Qed.

End Primitives.

#[global] Hint Resolve emit_same_but_trace deref_preserves answer_preserves
  emit_keeps_warnings alloc_keeps_warnings set_asset_keeps_warnings
  push_error_keeps_warnings modify_heap_keeps_warnings set_marker_keeps_warnings
  : frame.

(** ** The methods, one by one *)

Section Methods.
Context `{Host}.

(** *** [_processSourceMap] *)

Lemma call_source_same_but_trace (r : ref) :
  preserves same_but_trace (call_source r).
Proof. unfold call_source. frame. Qed.

Lemma call_map_same_but_trace (r : ref) :
  preserves same_but_trace (call_map r).
Proof. unfold call_map. frame. Qed.

Lemma call_sourceAndMap_same_but_trace (r : ref) :
  preserves same_but_trace (call_sourceAndMap r).
Proof. unfold call_sourceAndMap. frame. Qed.

Hint Resolve call_source_same_but_trace call_map_same_but_trace
  call_sourceAndMap_same_but_trace : frame.

(** What a recorded accessor call comes to. *)
Lemma call_source_run (r : ref) (s : State) :
  call_source r s
  = (source_text stack_limit (heap s) r, set_trace (trace s ++ [CallSource r]) s).
Proof. reflexivity. Qed.

Lemma call_map_run (r : ref) (s : State) :
  call_map r s = (source_map (heap s) r, set_trace (trace s ++ [CallMap r]) s).
Proof. reflexivity. Qed.

Lemma call_sourceAndMap_run (r : ref) (s : State) :
  call_sourceAndMap r s
  = (source_and_map (heap s) r, set_trace (trace s ++ [CallSourceAndMap r]) s).
Proof. reflexivity. Qed.

(** Resolving the input reads the asset and nothing else. *)
Lemma processSourceMap_same_but_trace (opts : Options) (asset : ref) :
  preserves same_but_trace (_processSourceMap opts asset).
Proof. unfold _processSourceMap. frame. Qed.

(** *** [_processExtractComments] *)

(** Lines 105-117 read [options], which nothing binds: no pair of specs is
    ever produced. *)
Lemma resolve_conditions_throws (opts : Options) (output : Output) :
  resolve_conditions opts output = Throw (ReferenceError "options").
Proof. unfold resolve_conditions. destruct (extractComments opts); reflexivity. Qed.

Lemma processExtractComments_throws (opts : Options) (output : Output) :
  _processExtractComments opts output = Throw (ReferenceError "options").
Proof.
  unfold _processExtractComments. rewrite resolve_conditions_throws. reflexivity.
Qed.

(** *** [_processExeption] *)

(** Called as on line 46, without a source map, the handler records one
    message and returns. *)
Lemma processExeption_unmapped (err : Exn) (file : string) (s : State) :
  _processExeption err file None s
  = (Ok tt, set_errors (errors s ++ [failure_message err file]) s).
Proof.
  unfold _processExeption, failure_message.
  destruct (e_line err) as [[|n]|]; try reflexivity;
    destruct (e_msg err) as [[|a m]|]; reflexivity.
Qed.

(** With a map that knows the position, line 189 reads [requestShortener],
    which nothing binds. *)
Lemma processExeption_mapped_throws (err : Exn) (file : string)
  (consumer : Consumer) (n : nat) (a : ascii) (src : string) (s : State) :
  e_line err = Some (S n) ->
  op_source (consumer (S n) (e_col err)) = Some (String a src) ->
  _processExeption err file (Some consumer) s
  = (Throw (ReferenceError "requestShortener"), s).
Proof.
  intros Hline Hsrc. unfold _processExeption. rewrite Hline.
  destruct (consumer (S n) (e_col err)) as [osrc ol oc]. simpl in Hsrc.
  rewrite Hsrc. reflexivity.
Qed.

(** With a map that does not know the position, the generated position is
    recorded alone. *)
Lemma processExeption_no_mapping (err : Exn) (file : string)
  (consumer : Consumer) (n : nat) (s : State) :
  e_line err = Some (S n) ->
  op_source (consumer (S n) (e_col err)) = None ->
  _processExeption err file (Some consumer) s
  = (Ok tt, set_errors (errors s ++
       [file ++ " from UglifyJs" ++ LF ++ str_of (e_message err)
        ++ " [" ++ file ++ ":" ++ pretty (S n) ++ "," ++ num_of (e_col err) ++ "]"]) s).
Proof.
  intros Hline Hsrc. unfold _processExeption. rewrite Hline.
  destruct (consumer (S n) (e_col err)) as [osrc ol oc]. simpl in Hsrc.
  rewrite Hsrc. reflexivity.
Qed.

(** *** [_writeExtractedComments] *)

(** Without an explicit file name, lines 201-203 read [file]. *)
Lemma comments_file_needs_explicit_name (e : ExtractSpec) (name : string) :
  comments_file e = Ok name ->
  exists o, e = EObj o /\ filename o = FnStr name /\ truthy_str name = true.
Proof.
  unfold comments_file. destruct e as [|b|t|r|o]; simpl; try discriminate.
  destruct (filename o) as [|[|a t]|f] eqn:Hf; simpl; try discriminate.
  intros [= <-]. exists o. rewrite Hf. auto.
Qed.

Lemma comments_file_explicit (o : ExtractObject) (a : ascii) (name : string) :
  filename o = FnStr (String a name) ->
  comments_file (EObj o) = Ok (String a name).
Proof. intros Hf. unfold comments_file. simpl. rewrite Hf. reflexivity. Qed.

Lemma comments_file_throws (e : ExtractSpec) :
  e <> EUndefined ->
  (forall o a name, e = EObj o -> filename o <> FnStr (String a name)) ->
  comments_file e = Throw (ReferenceError "file").
Proof.
  intros Hu Hn. unfold comments_file. destruct e as [|b|t|r|o]; simpl; try done.
  destruct (filename o) as [|[|a t]|f] eqn:Hf; simpl; try done.
  exfalso. eapply Hn; eauto.
Qed.

(** A banner that is to be written makes line 228 read [outputSource]. *)
Lemma write_banner_throws (e : ExtractSpec) (b : Banner) (commentsFile : string)
  (s : State) :
  get_banner e = Ok b ->
  b <> BnFalse ->
  (forall f, b = BnFun f -> truthy_str (f commentsFile) = true) ->
  write_banner e commentsFile s = (Throw (ReferenceError "outputSource"), s).
Proof.
  intros Hb Hnf Hfun. unfold write_banner, lift, mbind, M_bind. rewrite Hb.
  destruct b as [| |[|a t]|f]; try done.
  simpl. rewrite (Hfun f eq_refl). reflexivity.
Qed.

(** A banner switched off, or computed empty, writes nothing. *)
Lemma write_banner_skips (e : ExtractSpec) (b : Banner) (commentsFile : string)
  (s : State) :
  get_banner e = Ok b ->
  b = BnFalse \/ (exists f, b = BnFun f /\ truthy_str (f commentsFile) = false) ->
  write_banner e commentsFile s = (Ok tt, s).
Proof.
  intros Hb Hcase. unfold write_banner, lift, mbind, M_bind. rewrite Hb.
  destruct Hcase as [->|(f & -> & Hf)]; [reflexivity|].
  simpl. rewrite Hf. reflexivity.
Qed.

(** The method, for the three ways it can go. *)
Lemma writeExtractedComments_needs_explicit_name (opts : Options)
  (cs : list string) (s : State) :
  extractComments opts <> EUndefined ->
  (forall o a name, extractComments opts = EObj o ->
                    filename o <> FnStr (String a name)) ->
  _writeExtractedComments opts cs s = (Throw (ReferenceError "file"), s).
Proof.
  intros Hu Hn. unfold _writeExtractedComments, lift, mbind, M_bind.
  rewrite (comments_file_throws _ Hu Hn). reflexivity.
Qed.

Lemma writeExtractedComments_banner_throws (opts : Options) (cs : list string)
  (s : State) (name : string) (b : Banner) :
  comments_file (extractComments opts) = Ok name ->
  get_banner (extractComments opts) = Ok b ->
  b <> BnFalse ->
  (forall f, b = BnFun f -> truthy_str (f name) = true) ->
  _writeExtractedComments opts cs s
  = (Throw (ReferenceError "outputSource"), (write_sidecar name cs s).2).
Proof.
  intros Hname Hb Hnf Hfun.
  unfold _writeExtractedComments, lift. unfold mbind at 1 2. unfold M_bind.
  rewrite Hname.
  assert (Hw : (write_sidecar name cs s).1 = Ok tt).
  { unfold write_sidecar, mbind, M_bind, alloc, get_asset, gets.
    cbn [heap assets set_heap].
    destruct (assets s !! name) as [r|]; [|destruct (inherited name); reflexivity].
    destruct (_ !! r) as [[[v| |children|a] mark]|]; reflexivity. }
  destruct (write_sidecar name cs s) as [[[]|e] s1]; simpl in Hw; [|discriminate].
  simpl. apply (write_banner_throws _ b); assumption.
Qed.

Lemma writeExtractedComments_without_banner (opts : Options) (cs : list string)
  (s : State) (name : string) (b : Banner) :
  comments_file (extractComments opts) = Ok name ->
  get_banner (extractComments opts) = Ok b ->
  b = BnFalse \/ (exists f, b = BnFun f /\ truthy_str (f name) = false) ->
  _writeExtractedComments opts cs s = write_sidecar name cs s.
Proof.
  intros Hname Hb Hcase.
  unfold _writeExtractedComments, lift. unfold mbind at 1 2. unfold M_bind.
  rewrite Hname.
  destruct (write_sidecar name cs s) as [[[]|e] s1]; [|reflexivity].
  apply (write_banner_skips _ b); assumption.
Qed.

End Methods.

(** ** [_processFile], case by case *)

Section ProcessFile.
Context `{Host}.

(** No asset under the name: a [TypeError], and nothing done. *)
Lemma processFile_missing (opts : Options) (file : string) (s : State) :
  assets s !! file = None ->
  _processFile opts file s = (Throw (TypeError (no_asset opts file)), s).
Proof.
  intros Ha. unfold _processFile, mbind, M_bind, get_asset, gets.
  rewrite Ha. reflexivity.
Qed.

(** The asset carries the marker: lines 57-59 install the cached result
    and return. *)
Lemma processFile_cached (opts : Options) (file : string) (s : State)
  (r : ref) (o : Obj) (out : ref) :
  assets s !! file = Some r ->
  heap s !! r = Some o ->
  __UglifyJsPlugin o = Some out ->
  _processFile opts file s = (Ok tt, set_assets (<[file := out]> (assets s)) s).
Proof.
  intros Ha Hh Hm. unfold _processFile, mbind, M_bind, get_asset, gets.
  rewrite Ha. unfold deref. rewrite Hh, Hm. reflexivity.
Qed.

(** The asset carries no marker: either something throws before line 89,
    with only calls recorded, or the minified code is installed. *)
Lemma processFile_fresh (opts : Options) (file : string) (s : State)
  (r : ref) (o : Obj) :
  assets s !! file = Some r ->
  heap s !! r = Some o ->
  __UglifyJsPlugin o = None ->
  exists s1, same_but_trace s s1 /\
    ((exists e, _processFile opts file s = (Throw e, s1)) \/
     (exists code, _processFile opts file s
                   = (Ok tt, install_source file r o (new_RawSource code) s1))).
Proof.
  intros Ha Hh Hm. unfold _processFile, mbind, M_bind, get_asset, gets.
  rewrite Ha. unfold deref. rewrite Hh, Hm.
  pose proof (processSourceMap_same_but_trace opts r s) as Hsm.
  destruct (_processSourceMap opts r s) as [[input|e] s1]; simpl in Hsm.
  2:{ exists s1. split; [exact Hsm|]. left. eauto. }
  unfold emit, modify, lift. simpl.
  set (mo := {| mo_mangle := mangle opts; mo_toplevel := toplevel opts;
                mo_sourceMap := sourceMap opts |}).
  set (s2 := set_trace (trace s1 ++ [CallMinify input mo]) s1).
  assert (Hs2 : same_but_trace s s2).
  { transitivity s1; [exact Hsm|]. unfold same_but_trace. simpl. tauto. }
  exists s2. split; [exact Hs2|].
  destruct (minify input mo) as [result|e]; [|left; eauto].
  assert (Hr : heap s2 !! r = Some o).
  { destruct Hs2 as (-> & _). exact Hh. }
  destruct (truthy_extract (extractComments opts)).
  - rewrite processExtractComments_throws. left. eauto.
  - right. exists (r_code result). simpl.
    unfold set_marker, mbind, M_bind, deref, modify. simpl.
    rewrite (lookup_app_l_Some _ _ _ _ Hr). reflexivity.
Qed.

(** A dangling asset reference: line 57 again. *)
Lemma processFile_dangling (opts : Options) (file : string) (s : State) (r : ref) :
  assets s !! file = Some r ->
  heap s !! r = None ->
  exists e, _processFile opts file s = (Throw e, s).
Proof.
  intros Ha Hh. unfold _processFile, mbind, M_bind, get_asset, gets.
  rewrite Ha. unfold deref. rewrite Hh. eauto.
Qed.

(** A failing file leaves the store, the asset map and both collections as
    they were. *)
Lemma processFile_throw_frame (opts : Options) (file : string) (s s1 : State)
  (e : Exn) :
  _processFile opts file s = (Throw e, s1) -> same_but_trace s s1.
Proof.
  intros Hrun.
  destruct (assets s !! file) as [r|] eqn:Ha.
  2:{ rewrite (processFile_missing _ _ _ Ha) in Hrun.
      injection Hrun as _ <-. reflexivity. }
  destruct (heap s !! r) as [o|] eqn:Hh.
  2:{ destruct (processFile_dangling opts _ _ _ Ha Hh) as [e' He'].
      rewrite He' in Hrun. injection Hrun as _ <-. reflexivity. }
  destruct (__UglifyJsPlugin o) as [out|] eqn:Hm.
  { rewrite (processFile_cached _ _ _ _ _ _ Ha Hh Hm) in Hrun. discriminate. }
  destruct (processFile_fresh opts _ _ _ _ Ha Hh Hm)
    as (s2 & Hs2 & [[e' He']|[code Hc]]).
  - rewrite He' in Hrun. injection Hrun as _ <-. exact Hs2.
  - rewrite Hc in Hrun. discriminate.
Qed.

(** After a successful pass the asset object carries the marker, and the
    marker is what the file name now maps to: another object than the
    asset if the asset was unmarked. *)
Lemma processFile_marks (opts : Options) (file : string) (s s1 : State) (r : ref) :
  assets s !! file = Some r ->
  _processFile opts file s = (Ok tt, s1) ->
  exists o out, heap s1 !! r = Some o /\ __UglifyJsPlugin o = Some out /\
                assets s1 !! file = Some out /\
                (forall o0, heap s !! r = Some o0 -> __UglifyJsPlugin o0 = None ->
                            out <> r).
Proof.
  intros Ha Hrun.
  destruct (heap s !! r) as [o|] eqn:Hh.
  2:{ destruct (processFile_dangling opts _ _ _ Ha Hh) as [e' He'].
      rewrite He' in Hrun. discriminate. }
  destruct (__UglifyJsPlugin o) as [out|] eqn:Hm.
  { rewrite (processFile_cached _ _ _ _ _ _ Ha Hh Hm) in Hrun.
    injection Hrun as <-. exists o, out. simpl.
    rewrite lookup_insert_eq. do 3 (split; [done|]).
    intros o0 [= <-] Hnone. congruence. }
  destruct (processFile_fresh opts _ _ _ _ Ha Hh Hm)
    as (s2 & Hs2 & [[e' He']|[code Hc]]).
  - rewrite He' in Hrun. discriminate.
  - rewrite Hc in Hrun. injection Hrun as <-.
    exists (mkObj (body o) (Some (length (heap s2)))), (length (heap s2)).
    unfold install_source. simpl. rewrite lookup_insert_eq.
    destruct Hs2 as (Hheap & _). rewrite Hheap.
    apply lookup_lt_Some in Hh.
    split; [|split; [done|split; [done|intros; lia]]].
    apply list_lookup_insert_eq. rewrite length_app. simpl. lia.
Qed.

End ProcessFile.

(** ** The pipeline *)

Section Pipeline.
Context `{Host}.

(** The catch handler on line 46 always returns. *)
Lemma compile_file_unfold (opts : Options) (file : string) (s : State) :
  compile_file opts file s =
  match _processFile opts file s with
  | (Ok _, s1) => (Ok tt, s1)
  | (Throw e, s1) =>
      (Ok tt, set_errors (errors s ++ [failure_message e file])
                         (set_trace (trace s1) s))
  end.
Proof.
  unfold compile_file, try_catch.
  destruct (_processFile opts file s) as [[[]|e] s1] eqn:Hrun; [reflexivity|].
  rewrite processExeption_unmapped.
  apply processFile_throw_frame, same_but_trace_eq in Hrun.
  rewrite Hrun at 1 2. reflexivity.
Qed.

Lemma compile_file_returns (opts : Options) (file : string) (s : State) :
  (compile_file opts file s).1 = Ok tt.
Proof.
  rewrite compile_file_unfold.
  destruct (_processFile opts file s) as [[[]|e] s1]; reflexivity.
Qed.

(** A loop whose body always returns runs it on every element. *)
Lemma forEach_returns {A} (f : A -> M unit) (l : list A) (s : State) :
  (forall a s', (f a s').1 = Ok tt) ->
  forEach f l s = (Ok tt, fold_left (fun st a => (f a st).2) l s).
Proof.
  intros Hf. revert s. induction l as [|a l IH]; intros s; [reflexivity|].
  simpl. unfold mbind, M_bind. specialize (Hf a s).
  destruct (f a s) as [[[]|e] s1]; simpl in *; [apply IH | discriminate].
Qed.

(** *** Warnings *)

Lemma processExeption_keeps_warnings (err : Exn) (file : string)
  (sourceMap : option Consumer) :
  preserves keeps_warnings (_processExeption err file sourceMap).
Proof. unfold _processExeption. frame. Qed.

Lemma writeExtractedComments_keeps_warnings (opts : Options)
  (extractedComments : list string) :
  preserves keeps_warnings (_writeExtractedComments opts extractedComments).
Proof.
  unfold _writeExtractedComments, write_sidecar, write_banner, get_asset. frame.
Qed.

Lemma processSourceMap_keeps_warnings (opts : Options) (asset : ref) :
  preserves keeps_warnings (_processSourceMap opts asset).
Proof.
  intros s. apply same_but_trace_keeps_warnings, processSourceMap_same_but_trace.
Qed.

Hint Resolve processExeption_keeps_warnings writeExtractedComments_keeps_warnings
  processSourceMap_keeps_warnings : frame.

Lemma processFile_keeps_warnings (opts : Options) (file : string) :
  preserves keeps_warnings (_processFile opts file).
Proof.
  unfold _processFile, get_asset. cbv zeta.
  change (0 <? length (@nil string))%nat with false. cbv iota.
  frame.
Qed.

Hint Resolve processFile_keeps_warnings : frame.

Lemma compile_keeps_warnings (opts : Options) (chunks : list Chunk) :
  preserves keeps_warnings (_compile opts chunks).
Proof.
  assert (forall file, preserves keeps_warnings (compile_file opts file)) as Hfile.
  { intros file. unfold compile_file. frame. }
  unfold _compile. frame.
Qed.

End Pipeline.

(** ** The sidecar file *)

Section Sidecar.
Context `{Host}.

(** Appending the empty string. *)
Lemma append_empty_r (t : string) : t ++ EmptyString = t.
Proof.
  induction t as [|a t IH]; [reflexivity|].
  change (String a (t ++ EmptyString) = String a t). by rewrite IH.
Qed.

Lemma heap_set_heap (h : list Obj) (s : State) : heap (set_heap h s) = h.
Proof. reflexivity. Qed.

(** No asset under the name yet, and the name is none that the asset
    object inherits: line 218 installs the batch. *)
Lemma write_sidecar_new (name : string) (cs : list string) (s : State) :
  assets s !! name = None ->
  inherited name = false ->
  write_sidecar name cs s
  = (Ok tt, set_assets (<[name := length (heap s)]> (assets s))
              (set_heap (heap s ++ [mkObj (RawSource (batch cs)) None]) s)).
Proof.
  intros Ha Hi. unfold write_sidecar, mbind, M_bind, alloc, get_asset, gets. simpl.
  rewrite Ha, Hi. reflexivity.
Qed.

(** No asset under the name, which the asset object inherits: the test of
    line 207 succeeds, and lines 213-215 wrap the inherited value, a line
    feed and the batch in a new [ConcatSource]. *)
Lemma write_sidecar_inherited (name : string) (cs : list string) (s : State) :
  assets s !! name = None ->
  inherited name = true ->
  write_sidecar name cs s
  = (Ok tt, set_assets (<[name := S (length (heap s))]> (assets s))
              (set_heap (heap s ++ [mkObj (RawSource (batch cs)) None;
                                    mkObj (ConcatSource
                                      [CInherited name; CStr LF;
                                       CSrc (length (heap s))]) None])
                        s)).
Proof.
  intros Ha Hi. unfold write_sidecar, mbind, M_bind, alloc, get_asset, gets.
  cbn [heap assets set_heap]. rewrite Ha, Hi, !heap_set_heap.
  unfold set_asset, modify, set_assets, set_heap, batch; cbn [heap assets].
  rewrite length_app, Nat.add_1_r, <- app_assoc. reflexivity.
Qed.

(** A plain asset under the name: lines 213-215 wrap it, a line feed and
    the batch in a new [ConcatSource]. *)
Lemma write_sidecar_wrap (name : string) (cs : list string) (s : State)
  (r : ref) (o : Obj) :
  assets s !! name = Some r ->
  heap s !! r = Some o ->
  (forall children, body o <> ConcatSource children) ->
  write_sidecar name cs s
  = (Ok tt, set_assets (<[name := S (length (heap s))]> (assets s))
              (set_heap (heap s ++ [mkObj (RawSource (batch cs)) None;
                                    mkObj (ConcatSource
                                      [CSrc r; CStr LF; CSrc (length (heap s))]) None])
                        s)).
Proof.
  intros Ha Hh Hplain.
  unfold write_sidecar, mbind, M_bind, alloc, get_asset, gets.
  cbn [heap assets set_heap]. rewrite Ha, !heap_set_heap.
  rewrite (lookup_app_l_Some _ _ _ _ Hh).
  destruct o as [[v| |children|a] mark]; cbn [body] in *;
    try (exfalso; eapply Hplain; reflexivity);
    unfold set_asset, modify, set_assets, set_heap, batch; cbn [heap assets];
    rewrite length_app, Nat.add_1_r, <- app_assoc; reflexivity.
Qed.

(** A [ConcatSource] under the name: lines 210-211 add to it in place. *)
Lemma write_sidecar_add (name : string) (cs : list string) (s : State)
  (r : ref) (children : list Child) (mark : option ref) :
  assets s !! name = Some r ->
  heap s !! r = Some (mkObj (ConcatSource children) mark) ->
  write_sidecar name cs s
  = (Ok tt, set_heap
              (<[r := mkObj (ConcatSource
                        (children ++ [CStr LF; CSrc (length (heap s))])) mark]>
                 (heap s ++ [mkObj (RawSource (batch cs)) None])%list) s).
Proof.
  intros Ha Hh.
  unfold write_sidecar, mbind, M_bind, alloc, get_asset, gets.
  cbn [heap assets set_heap]. rewrite Ha, !heap_set_heap.
  rewrite (lookup_app_l_Some _ _ _ _ Hh). reflexivity.
Qed.

(** The text of a [RawSource] is its value. *)
Lemma source_text_raw (fuel : nat) (h : list Obj) (r : ref) (v : string)
  (mark : option ref) :
  h !! r = Some (mkObj (RawSource v) mark) -> source_text fuel h r = Ok (Some v).
Proof. intros Hr. destruct fuel; simpl; rewrite Hr; reflexivity. Qed.

(** A [RawSource] returns the value it was given, [undefined] too. *)
Lemma source_text_new_raw (fuel : nat) (h : list Obj) (r : ref)
  (value : option string) (mark : option ref) :
  h !! r = Some (mkObj (new_RawSource value) mark) ->
  source_text fuel h r = Ok value.
Proof. intros Hr. destruct fuel, value; simpl; rewrite Hr; reflexivity. Qed.

(** The text of a [ConcatSource] is the text of its children, one level
    down. *)
Lemma source_text_concat (fuel : nat) (h : list Obj) (r : ref)
  (children : list Child) (mark : option ref) :
  h !! r = Some (mkObj (ConcatSource children) mark) ->
  source_text (S fuel) h r
  = (t ← children_text (source_text fuel h) children; mret (Some t)).
Proof. intros Hr. simpl. rewrite Hr. reflexivity. Qed.

(** The last three cells of a store. *)
Lemma lookup_last_three (h : list Obj) (a b c : Obj) :
  (h ++ [a; b; c])%list !! length h = Some a /\
  (h ++ [a; b; c])%list !! S (length h) = Some b /\
  (h ++ [a; b; c])%list !! S (S (length h)) = Some c.
Proof.
  repeat split; rewrite lookup_app_r by lia.
  - by rewrite Nat.sub_diag.
  - by replace (S (length h) - length h) with 1 by lia.
  - by replace (S (S (length h)) - length h) with 2 by lia.
Qed.

(** Two batches written under one fresh name: one asset, whose text is the
    first batch, a line feed, and the second batch. *)
Lemma write_sidecar_twice (name : string) (c1 c2 : list string) (s : State) :
  assets s !! name = None ->
  inherited name = false ->
  0 < stack_limit ->
  exists s2 r,
    (write_sidecar name c1 ;; write_sidecar name c2) s = (Ok tt, s2) /\
    assets s2 = <[name := r]> (assets s) /\
    source_text stack_limit (heap s2) r = Ok (Some (batch c1 ++ LF ++ batch c2)).
Proof.
  intros Ha Hi Hlimit. unfold mbind at 1. unfold M_bind.
  rewrite (write_sidecar_new _ _ _ Ha Hi).
  set (s1 := set_assets _ _).
  assert (Hh1 : heap s1 !! length (heap s) = Some (mkObj (RawSource (batch c1)) None)).
  { simpl. rewrite lookup_app_r by lia. rewrite Nat.sub_diag. reflexivity. }
  assert (Ha1 : assets s1 !! name = Some (length (heap s))).
  { simpl. apply lookup_insert_eq. }
  rewrite (write_sidecar_wrap _ _ _ _ _ Ha1 Hh1) by (intros children; discriminate).
  eexists _, _. split; [reflexivity|]. split.
  { simpl. apply insert_insert_eq. }
  cbn [heap set_assets set_heap s1].
  rewrite length_app, Nat.add_1_r, <- app_assoc. cbn [app].
  destruct (lookup_last_three (heap s)
              (mkObj (RawSource (batch c1)) None)
              (mkObj (RawSource (batch c2)) None)
              (mkObj (ConcatSource [CSrc (length (heap s)); CStr LF;
                                    CSrc (S (length (heap s)))]) None))
    as (Hl1 & Hl2 & Hl3).
  destruct stack_limit as [|fuel]; [lia|].
  rewrite (source_text_concat _ _ _ _ _ Hl3). cbn [children_text].
  rewrite (source_text_raw _ _ _ _ _ Hl1), (source_text_raw _ _ _ _ _ Hl2).
  cbn [mbind outcome_bind mret outcome_ret str_of].
  rewrite append_empty_r. reflexivity.
Qed.

End Sidecar.


(** * The claims *)

Section Claims.
Context `{Host}.

(** C10. [_processFile] never appends to [compilation.warnings]: its local
    [warnings] array is empty when line 97 tests its length.  Neither does
    [_compile].  And no method calls [warningFilter]: each of them is the
    same function whatever the filter is. *)
Theorem warnings_never_emitted (opts : Options) :
  (forall file s, warnings (_processFile opts file s).2 = warnings s) /\
  (forall chunks s, warnings (_compile opts chunks s).2 = warnings s) /\
  (forall g,
     _processFile (with_warningFilter g opts) = _processFile opts /\
     _processSourceMap (with_warningFilter g opts) = _processSourceMap opts /\
     _processExtractComments (with_warningFilter g opts)
       = _processExtractComments opts /\
     _writeExtractedComments (with_warningFilter g opts)
       = _writeExtractedComments opts /\
     _compile (with_warningFilter g opts) = _compile opts).
Proof.
  split; [intros file s; apply processFile_keeps_warnings|].
  split; [intros chunks s; apply compile_keeps_warnings|].
  intros g. destruct opts. repeat split.
Qed.

(** C6. The [switch] on lines 121-142 turns each of the five shapes of
    spec into a function: a boolean into the constant function of that
    value; a function into itself; the string [all] into the constant
    function [true]; any other string into the test of the regular
    expression compiled from it against [comment.value]; a RegExp into the
    same test.  So a spec [true] answers [true] for every comment, and
    where the engine matches [@license] against [@license foo], and [^!]
    against [!keep], the normalized specs answer [true] on those
    comments. *)
Theorem normalize_shapes :
  (forall b, exists p, normalize (SBool b) = Ok p /\ forall a c, p a c = Ok b) /\
  (forall f, normalize (SFun f) = Ok f) /\
  (exists p, normalize (SStr "all") = Ok p /\ forall a c, p a c = Ok true) /\
  (forall s regex, s <> "all" -> new_RegExp s = Ok regex ->
     exists p, normalize (SStr s) = Ok p /\
               forall a c, p a c = Ok (RegExp_test regex (c_value c))) /\
  (forall regex,
     exists p, normalize (SRegExp regex) = Ok p /\
               forall a c, p a c = Ok (RegExp_test regex (c_value c))) /\
  (exists p, normalize (SBool true) = Ok p /\ forall a c, p a c = Ok true) /\
  (forall regex, new_RegExp "@license" = Ok regex ->
     RegExp_test regex "@license foo" = true ->
     exists p, normalize (SStr "@license") = Ok p /\
               forall a ty, p a (mkComment ty "@license foo") = Ok true) /\
  (RegExp_test (mkRegExp "^!" EmptyString) "!keep" = true ->
     exists p, normalize (SRegExp (mkRegExp "^!" EmptyString)) = Ok p /\
               forall a ty, p a (mkComment ty "!keep") = Ok true).
Proof.
  assert (Hstr : forall s regex, s <> "all" -> new_RegExp s = Ok regex ->
     exists p, normalize (SStr s) = Ok p /\
               forall a c, p a c = Ok (RegExp_test regex (c_value c))).
  { intros s regex Hs Hre. unfold normalize.
    apply String.eqb_neq in Hs. rewrite Hs, Hre. simpl. eauto. }
  repeat split.
  - intros b. simpl. eauto.
  - simpl. eauto.
  - exact Hstr.
  - intros regex. simpl. eauto.
  - simpl. eauto.
  - intros regex Hre Htest.
    destruct (Hstr "@license" regex) as (p & Hp & Hpc); [discriminate|exact Hre|].
    exists p. split; [exact Hp|]. intros a ty. rewrite Hpc. simpl.
    by rewrite Htest.
  - intros Htest. simpl.
    eexists. split; [reflexivity|]. intros a ty. simpl. by rewrite Htest.
Qed.

(** C7. The function installed on lines 147-156 asks the extract predicate
    first.  If it answers [true], the comment is pushed at the end of the
    array, between [/*] and [*/] when its type is [comment2] and after [//]
    otherwise, and the function returns what the preserve predicate
    returns; if it answers [false], the array is left alone and the
    function again returns what the preserve predicate returns; if it
    throws, the throw goes through.  Called on a sequence of comments, it
    leaves in the array the comments the extract predicate accepts, in
    order and with repetitions, and returns the preserve predicate's answer
    for each. *)
Theorem visitor_routes_comments (extract preserve : Predicate) (a : AstNode)
  (c : Comment) (sink : list string) :
  (extract a c = Ok true ->
     visitor extract preserve a c sink
     = (preserve a c, (sink ++ [format_comment c])%list)) /\
  (extract a c = Ok false ->
     visitor extract preserve a c sink = (preserve a c, sink)) /\
  (forall e, extract a c = Throw e ->
     visitor extract preserve a c sink = (Throw e, sink)) /\
  (c_type c = "comment2" -> format_comment c = "/*" ++ c_value c ++ "*/") /\
  (c_type c <> "comment2" -> format_comment c = "//" ++ c_value c) /\
  (forall (ex pr : AstNode -> Comment -> bool) (cs : list Comment),
     visit_all (visitor (fun a c => Ok (ex a c)) (fun a c => Ok (pr a c)))
               a cs sink
     = (Ok (map (pr a) cs),
        (sink ++ map format_comment (List.filter (ex a) cs))%list)).
Proof.
  repeat split.
  - intros He. unfold visitor. by rewrite He.
  - intros He. unfold visitor. by rewrite He.
  - intros e He. unfold visitor. by rewrite He.
  - intros Hty. unfold format_comment. by rewrite Hty.
  - intros Hty. unfold format_comment.
    apply String.eqb_neq in Hty. by rewrite Hty.
  - intros ex pr cs. revert sink.
    induction cs as [|c' cs IH]; intros sink; simpl.
    + by rewrite app_nil_r.
    + unfold visitor at 1. destruct (ex a c'); rewrite IH; simpl.
      * by rewrite <- app_assoc.
      * reflexivity.
Qed.

(** With source maps switched off, line 166 reads the text, and lines
    169-178 go on to read the map and build the consumer all the same. *)
Lemma processSourceMap_disabled (opts : Options) (r : ref) (o : Obj)
  (text text' : option string) (m : option string) (s : State) :
  sourceMap opts = false ->
  heap s !! r = Some o ->
  has_sourceAndMap o = true ->
  source_text stack_limit (heap s) r = Ok text ->
  source_and_map (heap s) r = Ok (text', m) ->
  _processSourceMap opts r s
  = (_ ← new_SourceMapConsumer m; mret text',
     set_trace (trace s ++ [CallSource r; CallSourceAndMap r;
                            NewSourceMapConsumer m]) s).
Proof.
  intros Hoff Hr Hsam Htext Hboth.
  unfold _processSourceMap, mbind, M_bind. rewrite Hoff. cbn [negb].
  rewrite call_source_run, Htext. cbn [mret M_ret].
  unfold deref. cbn [heap set_trace]. rewrite Hr, Hsam.
  rewrite call_sourceAndMap_run. cbn [heap set_trace]. rewrite Hboth.
  cbn [mret M_ret fst snd]. unfold emit, modify, lift.
  cbn [heap set_trace trace]. rewrite <- !app_assoc. cbn [app].
  destruct (new_SourceMapConsumer m); reflexivity.
Qed.

(** C2, as the code has it.  Unless [extractComments.filename] is a
    non-empty string, line 201 or line 203 reads [file], which the method
    does not bind: the call throws before anything is written, whether the
    name was to be [file] followed by [.LICENSE] or the result of the
    configured function. *)
Theorem sidecar_name_reads_unbound_file (opts : Options) (cs : list string)
  (s : State) (c : option Spec) (name_of : string -> string) (b : Banner) :
  _writeExtractedComments (with_extractComments (EBool true) opts) cs s
  = (Throw (ReferenceError "file"), s) /\
  _writeExtractedComments
    (with_extractComments (EObj (mkExtractObject c FnAbsent b)) opts) cs s
  = (Throw (ReferenceError "file"), s) /\
  _writeExtractedComments
    (with_extractComments (EObj (mkExtractObject c (FnFun name_of) b)) opts) cs s
  = (Throw (ReferenceError "file"), s).
Proof. repeat split. Qed.

(** C4, as the code has it.  For a failure at line 3, column 5, and a
    source map that places it at line 10, column 2 of [original.js], line
    189 reads [requestShortener], which nothing binds: the handler throws
    and records no message.  Called as [_compile] calls it, without the
    map, it records the generated position alone; and so for every
    failure: the message is [failure_message], which has the generated
    position when there is a line, the [msg] when there is none, and the
    [stack] otherwise. *)
Theorem mapped_failure_reads_unbound_requestShortener (s : State) :
  let err := mkExn (Some 3) (Some 5) (Some "Unexpected token") None None in
  let consumer : Consumer :=
    fun _ _ => mkOriginalPosition (Some "original.js") (Some 10) (Some 2) in
  _processExeption err "a.js" (Some consumer) s
  = (Throw (ReferenceError "requestShortener"), s) /\
  _processExeption err "a.js" None s
  = (Ok tt, set_errors (errors s ++
       ["a.js from UglifyJs" ++ LF ++ "Unexpected token [a.js:3,5]"]) s) /\
  (forall err' file s',
     _processExeption err' file None s'
     = (Ok tt, set_errors (errors s' ++ [failure_message err' file]) s')).
Proof. repeat split. apply processExeption_unmapped. Qed.

(** C5, as the code has it.  Both arms of the test on line 105 read
    [options], which nothing binds ([this._options] was meant): whatever
    [extractComments] is, no pair of specs is produced and the method
    throws. *)
Theorem extract_resolution_reads_unbound_options (opts : Options)
  (output : Output) :
  resolve_conditions opts output = Throw (ReferenceError "options") /\
  _processExtractComments opts output = Throw (ReferenceError "options") /\
  resolve_conditions (with_extractComments (EStr "all") opts) output
  <> Ok (out_comments output, SStr "all").
Proof.
  split; [apply resolve_conditions_throws|].
  split; [apply processExtractComments_throws|].
  rewrite resolve_conditions_throws. discriminate.
Qed.

(** C8, as the code has it.  With [sourceMap] false and an asset that has
    a [sourceAndMap] method, the method calls [source], then
    [sourceAndMap], then builds a consumer from the map. *)
Theorem processSourceMap_disabled_still_reads_map (opts : Options) :
  let s := Sample.state [Sample.asset "var a = 1;"] [("a.js", 0)] in
  trace (_processSourceMap (with_sourceMap false opts) 0 s).2
  = [CallSource 0; CallSourceAndMap 0; NewSourceMapConsumer (Some "{}")].
Proof.
  intros s.
  rewrite (processSourceMap_disabled _ 0 (Sample.asset "var a = 1;")
             (Some "var a = 1;") (Some "var a = 1;") (Some "{}") s);
    try reflexivity.
  unfold source_text. destruct stack_limit; reflexivity.
Qed.

(** C9, as the code has it.  With a sidecar name given and the banner left
    to its default, the sidecar is written and then line 228 reads
    [outputSource], which the method does not bind: the call throws, and no
    object holding a banner is in the store. *)
Theorem banner_reads_unbound_outputSource (opts : Options) :
  let e := EObj (mkExtractObject None (FnStr "licenses.txt") BnAbsent) in
  let s := Sample.state [] [] in
  _writeExtractedComments (with_extractComments e opts) ["/*! MIT */"] s
  = (Throw (ReferenceError "outputSource"),
     set_assets (<["licenses.txt" := 0]> (assets s))
       (set_heap [mkObj (RawSource ("/*! MIT */" ++ LF)) None] s)).
Proof. reflexivity. Qed.

End Claims.

(** * Runs on the sample host *)

(** The same name processed twice is two objects: the second pass sees the
    output of the first, which carries no marker, and transforms it. *)
Example same_name_second_pass :
  let s := Sample.state [Sample.asset "var a = 1;"] [("a.js", 0)] in
  let s' := (@_compile Sample.host Sample.options
               [mkChunk ["a.js"]; mkChunk ["a.js"]] s).2 in
  minify_calls (trace s') = 2 /\
  assets s' !! "a.js" = Some 2 /\
  heap s' !! 2 = Some (mkObj (RawSource "min:min:var a = 1;") None).
Proof. vm_compute. repeat split. Qed.

(** The two spec examples on an engine that matches literal patterns. *)
Lemma normalize_shapes_witness :
  (exists p, @normalize Sample.host (SStr "@license") = Ok p /\
             forall a ty, p a (mkComment ty "@license foo") = Ok true) /\
  (exists p, @normalize Sample.host (SRegExp (mkRegExp "^!" EmptyString)) = Ok p /\
             forall a ty, p a (mkComment ty "!keep") = Ok true).
Proof.
  destruct (@normalize_shapes Sample.host)
    as (_ & _ & _ & _ & _ & _ & Hlicense & Hbang).
  split.
  - apply (Hlicense (mkRegExp "@license" EmptyString)); reflexivity.
  - apply Hbang. reflexivity.
Defined.

(** A block comment the extract predicate accepts and the preserve
    predicate rejects. *)
Lemma visitor_routes_comments_witness :
  visitor (fun _ _ => Ok true) (fun _ _ => Ok false) 0
          (mkComment "comment2" "! MIT ") ["//@license"]
  = (Ok false, ["//@license"; "/*! MIT */"]).
Proof.
  destruct (visitor_routes_comments (fun _ _ => Ok true) (fun _ _ => Ok false) 0
              (mkComment "comment2" "! MIT ") ["//@license"])
    as (Htrue & _ & _ & Hblock & _).
  rewrite (Htrue eq_refl), (Hblock eq_refl). reflexivity.
Defined.

(** One failing file between two good ones: one error, the failing asset
    left as it was, the third file processed from the cache, one call to
    the minifier per asset object. *)
Example compile_sample_run :
  let s := Sample.state [Sample.asset "var a = 1;"; Sample.asset "function("]
                        [("a.js", 0); ("bad.js", 1); ("b.js", 0)] in
  let s' := (@_compile Sample.host Sample.options
               [mkChunk ["a.js"; "bad.js"]; mkChunk ["b.js"; "c.css"]] s).2 in
  errors s' = ["bad.js from UglifyJs" ++ LF ++ "Unexpected token: eof [bad.js:1,9]"] /\
  warnings s' = [] /\
  assets s' !! "bad.js" = Some 1 /\
  heap s' !! 1 = Some (Sample.asset "function(") /\
  assets s' !! "a.js" = Some 2 /\
  assets s' !! "b.js" = Some 2 /\
  heap s' !! 2 = Some (mkObj (RawSource "min:var a = 1;") None) /\
  minify_calls (trace s') = 2.
Proof. vm_compute. repeat split. Qed.

(** With [extractComments] switched on, every file fails on line 108 or
    109 and keeps its content. *)
Example compile_with_extraction :
  let s := Sample.state [Sample.asset "var a = 1;"] [("a.js", 0)] in
  let opts := with_extractComments (EBool true) Sample.options in
  let s' := (@_compile Sample.host opts [mkChunk ["a.js"]] s).2 in
  errors s' = ["a.js from UglifyJs" ++ LF ++ "ReferenceError: options is not defined"
               ++ LF ++ "    at UglifyEsPlugin"] /\
  assets s' = assets s /\ heap s' = heap s.
Proof. vm_compute. repeat split. Qed.

(** * Further properties *)

(** ** More frame relations *)

#[global] Instance reads_only_preorder : PreOrder reads_only.
Proof.
  split.
  - intros s. split; [reflexivity|]. exists []. by rewrite app_nil_r.
  - intros s1 s2 s3 [H12 (t1 & Ht1 & Ha1)] [H23 (t2 & Ht2 & Ha2)].
    split; [by transitivity s2|].
    exists (t1 ++ t2)%list. rewrite Ht2, Ht1, app_assoc. split; [done|].
    rewrite forallb_app, Ha1, Ha2. done.
Qed.

#[global] Instance no_callback_preorder : PreOrder no_callback.
Proof.
  split.
  - intros s. exists []. by rewrite app_nil_r.
  - intros s1 s2 s3 (t1 & Ht1 & Hc1) (t2 & Ht2 & Hc2).
    exists (t1 ++ t2)%list. rewrite Ht2, Ht1, app_assoc. split; [done|].
    unfold callback_calls in *. rewrite filter_app, length_app. lia.
Qed.

#[global] Instance heap_grows_preorder : PreOrder heap_grows.
Proof.
  split.
  - intros s r o Hr. exists o. auto.
  - intros s1 s2 s3 H12 H23 r o Hr.
    destruct (H12 r o Hr) as (o2 & Hr2 & Hb2 & Hm2).
    destruct (H23 r o2 Hr2) as (o3 & Hr3 & Hb3 & Hm3).
    exists o3. split; [done|]. split; [congruence|]. auto.
Qed.

#[global] Instance errors_grow_preorder : PreOrder errors_grow.
Proof.
  split.
  - intros s. unfold errors_grow. reflexivity.
  - intros s1 s2 s3 H12 H23. unfold errors_grow in *. by transitivity (errors s2).
Qed.

#[global] Instance same_names_preorder : PreOrder same_names.
Proof.
  split.
  - intros s. reflexivity.
  - intros s1 s2 s3 H12 H23. unfold same_names in *. congruence.
Qed.

#[global] Instance same_asset_preorder (name : string) : PreOrder (same_asset name).
Proof.
  split.
  - intros s. reflexivity.
  - intros s1 s2 s3 H12 H23. unfold same_asset in *. congruence.
Qed.

(** A loop preserves what its body preserves on the elements it meets. *)
Lemma preserves_forEach_elem (R : State -> State -> Prop) `{!PreOrder R} {A}
  (f : A -> M unit) (l : list A) :
  (forall a, a ∈ l -> preserves R (f a)) -> preserves R (forEach f l).
Proof.
  induction l as [|a l IH]; intros Hf; simpl.
  - apply preserves_ret; apply _.
  - apply preserves_bind; [apply _ | apply Hf; left |].
    intros _. apply IH. intros b Hb. apply Hf. by right.
Qed.

(** A measure that a step raises by one at most is raised by the length of
    the list at most. *)
Lemma forEach_measure {A} (mu : State -> nat) (f : A -> M unit) (l : list A)
  (s : State) :
  (forall a s', mu (f a s').2 <= S (mu s')) ->
  mu (forEach f l s).2 <= mu s + length l.
Proof.
  intros Hf. revert s. induction l as [|a l IH]; intros s; simpl; [lia|].
  unfold mbind, M_bind. specialize (Hf a s).
  destruct (f a s) as [[[]|e] s1]; simpl in *; [|lia].
  specialize (IH s1). lia.
Qed.

Section Reads.
Context `{Host}.

Lemma emit_reads_only (ev : Event) :
  is_accessor ev = true -> preserves reads_only (emit ev).
Proof.
  intros Hev s. split.
  - unfold same_but_trace. simpl. tauto.
  - exists [ev]. simpl. by rewrite Hev.
Qed.

Lemma call_source_reads_only (r : ref) : preserves reads_only (call_source r).
Proof.
  unfold call_source. apply preserves_bind; [apply _ | by apply emit_reads_only |].
  intros _. apply answer_preserves; apply _.
Qed.

Lemma call_map_reads_only (r : ref) : preserves reads_only (call_map r).
Proof.
  unfold call_map. apply preserves_bind; [apply _ | by apply emit_reads_only |].
  intros _. apply answer_preserves; apply _.
Qed.

Lemma call_sourceAndMap_reads_only (r : ref) :
  preserves reads_only (call_sourceAndMap r).
Proof.
  unfold call_sourceAndMap.
  apply preserves_bind; [apply _ | by apply emit_reads_only |].
  intros _. apply answer_preserves; apply _.
Qed.

Lemma new_consumer_reads_only (m : option string) :
  preserves reads_only (emit (NewSourceMapConsumer m)).
Proof. by apply emit_reads_only. Qed.

Hint Resolve call_source_reads_only call_map_reads_only
  call_sourceAndMap_reads_only new_consumer_reads_only : frame.

(** Resolving the input makes accessor calls and nothing else. *)
Lemma processSourceMap_reads_only (opts : Options) (asset : ref) :
  preserves reads_only (_processSourceMap opts asset).
Proof. unfold _processSourceMap. frame. Qed.

(** A pass over an unmarked asset, step by step. *)
Lemma processFile_fresh_run (opts : Options) (file : string) (s : State)
  (r : ref) (o : Obj) :
  assets s !! file = Some r ->
  heap s !! r = Some o ->
  __UglifyJsPlugin o = None ->
  _processFile opts file s =
  match _processSourceMap opts r s with
  | (Throw e, s1) => (Throw e, s1)
  | (Ok input, s1) =>
      let s2 := set_trace (trace s1 ++ [CallMinify input (minify_options opts)]) s1 in
      match minify input (minify_options opts) with
      | Throw e => (Throw e, s2)
      | Ok result =>
          if truthy_extract (extractComments opts)
          then (Throw (ReferenceError "options"), s2)
          else (Ok tt, install_source file r o (new_RawSource (r_code result)) s2)
      end
  end.
Proof.
  intros Ha Hh Hm. unfold _processFile, mbind, M_bind, get_asset, gets.
  rewrite Ha. unfold deref. rewrite Hh, Hm.
  pose proof (processSourceMap_same_but_trace opts r s) as Hsm.
  destruct (_processSourceMap opts r s) as [[input|e] s1]; simpl in Hsm;
    [|reflexivity].
  unfold emit, modify, lift, minify_options. simpl.
  destruct (minify input _) as [code|e]; [|reflexivity].
  destruct (truthy_extract (extractComments opts)).
  - rewrite processExtractComments_throws. reflexivity.
  - simpl. unfold set_marker, mbind, M_bind, deref, modify. simpl.
    destruct Hsm as (Hheap & _). rewrite <- Hheap in Hh.
    rewrite (lookup_app_l_Some _ _ _ _ Hh). reflexivity.
Qed.

End Reads.

(** ** One candidate file, and the loop over all of them *)

Section Steps.
Context `{Host}.

Lemma accessors_are_quiet (t : list Event) :
  forallb is_accessor t = true -> minify_calls t = 0 /\ callback_calls t = 0.
Proof.
  unfold minify_calls, callback_calls.
  induction t as [|ev t IH]; [done|]. simpl. intros [Hev Ht]%andb_prop.
  destruct (IH Ht) as [IHm IHc].
  destruct ev; try discriminate; rewrite !filter_cons; simpl; auto.
Qed.

Lemma minify_calls_app (t1 t2 : list Event) :
  minify_calls (t1 ++ t2) = minify_calls t1 + minify_calls t2.
Proof. unfold minify_calls. by rewrite filter_app, length_app. Qed.

Lemma callback_calls_app (t1 t2 : list Event) :
  callback_calls (t1 ++ t2) = callback_calls t1 + callback_calls t2.
Proof. unfold callback_calls. by rewrite filter_app, length_app. Qed.

(** The three ways the body of the loop can go: one message recorded; the
    cached result installed; a new source object installed. *)
Lemma compile_file_cases (opts : Options) (file : string) (s : State) :
  (exists msg t,
     compile_file opts file s
     = (Ok tt, set_errors (errors s ++ [msg]) (set_trace (trace s ++ t) s)) /\
     minify_calls t <= 1 /\ callback_calls t = 0) \/
  (exists r o out,
     assets s !! file = Some r /\ heap s !! r = Some o /\
     __UglifyJsPlugin o = Some out /\
     compile_file opts file s
     = (Ok tt, set_assets (<[file := out]> (assets s)) s)) \/
  (exists r o b t,
     assets s !! file = Some r /\ heap s !! r = Some o /\
     __UglifyJsPlugin o = None /\
     truthy_extract (extractComments opts) = false /\
     compile_file opts file s
     = (Ok tt, install_source file r o b (set_trace (trace s ++ t) s)) /\
     minify_calls t = 1 /\ callback_calls t = 0).
Proof.
  rewrite compile_file_unfold.
  assert (Hnil : set_trace (trace s ++ []) s = s).
  { rewrite app_nil_r. by destruct s. }
  destruct (assets s !! file) as [r|] eqn:Ha.
  2:{ left. rewrite (processFile_missing _ _ _ Ha). eexists _, [].
      rewrite Hnil. destruct s; simpl. split; [reflexivity|]. split; [compute; lia | reflexivity]. }
  destruct (heap s !! r) as [o|] eqn:Hh.
  2:{ left. destruct (processFile_dangling opts _ _ _ Ha Hh) as [e He].
      rewrite He. eexists _, []. rewrite Hnil. destruct s; simpl.
      split; [reflexivity|]. split; [compute; lia | reflexivity]. }
  destruct (__UglifyJsPlugin o) as [out|] eqn:Hm.
  { right. left. exists r, o, out.
    rewrite (processFile_cached _ _ _ _ _ _ Ha Hh Hm). auto. }
  rewrite (processFile_fresh_run _ _ _ _ _ Ha Hh Hm).
  pose proof (processSourceMap_reads_only opts r s) as [Hsame (t0 & Ht0 & Hacc)].
  destruct (accessors_are_quiet _ Hacc) as [Hm0 Hc0].
  apply same_but_trace_eq in Hsame. rewrite Ht0 in Hsame.
  destruct (_processSourceMap opts r s) as [[input|e] s1]; simpl in *.
  2:{ left. exists (failure_message e file), t0. rewrite Ht0.
      split; [reflexivity|]. split; [lia|done]. }
  set (ev := CallMinify input (minify_options opts)).
  assert (Hm1 : minify_calls (t0 ++ [ev]) = 1).
  { rewrite minify_calls_app, Hm0. by compute. }
  assert (Hc1 : callback_calls (t0 ++ [ev]) = 0).
  { rewrite callback_calls_app, Hc0. by compute. }
  assert (Hs2 : set_trace (trace s1 ++ [ev]) s1
                = set_trace (trace s ++ (t0 ++ [ev])) s).
  { rewrite Hsame. unfold set_trace. simpl. by rewrite app_assoc. }
  destruct (minify input (minify_options opts)) as [result|e].
  2:{ left. exists (failure_message e file), (t0 ++ [ev])%list.
      cbn [trace set_trace]. rewrite Ht0, <- app_assoc.
      split; [reflexivity|]. split; [lia|done]. }
  destruct (truthy_extract (extractComments opts)) eqn:Hex.
  { left. eexists _, (t0 ++ [ev])%list.
    cbn [trace set_trace]. rewrite Ht0, <- app_assoc.
    split; [reflexivity|]. split; [lia|done]. }
  right. right. exists r, o, (new_RawSource (r_code result)), (t0 ++ [ev])%list.
  rewrite Hs2. auto 10.
Qed.

Lemma compile_file_heap_grows (opts : Options) (file : string) :
  preserves heap_grows (compile_file opts file).
Proof.
  intros s.
  destruct (compile_file_cases opts file s)
    as [(msg & t & Hrun & _)|[(r & o & out & _ & _ & _ & Hrun)
        |(r & o & code & t & Ha & Hh & Hm & _ & Hrun & _)]];
    rewrite Hrun; intros r' o' Hr'; simpl.
  - exists o'. auto.
  - exists o'. auto.
  - destruct (decide (r' = r)) as [->|Hne].
    + assert (o' = o) as -> by congruence.
      eexists. split.
      * apply list_lookup_insert_eq. rewrite length_app.
        apply lookup_lt_Some in Hh. lia.
      * simpl. split; [done|]. intros out Hout. congruence.
    + exists o'. rewrite list_lookup_insert_ne by done.
      rewrite (lookup_app_l_Some _ _ _ _ Hr'). auto.
Qed.

Lemma compile_file_errors_grow (opts : Options) (file : string) :
  preserves errors_grow (compile_file opts file).
Proof.
  intros s. unfold errors_grow.
  destruct (compile_file_cases opts file s)
    as [(msg & t & Hrun & _)|[(r & o & out & _ & _ & _ & Hrun)
        |(r & o & code & t & Ha & Hh & Hm & _ & Hrun & _)]];
    rewrite Hrun; simpl; try reflexivity.
  by apply prefix_app_r.
Qed.

Lemma compile_file_same_names (opts : Options) (file : string) :
  preserves same_names (compile_file opts file).
Proof.
  intros s. unfold same_names.
  destruct (compile_file_cases opts file s)
    as [(msg & t & Hrun & _)|[(r & o & out & Ha & _ & _ & Hrun)
        |(r & o & code & t & Ha & Hh & Hm & _ & Hrun & _)]];
    rewrite Hrun; simpl; try reflexivity;
    rewrite dom_insert_L; apply elem_of_dom_2 in Ha;
    apply subseteq_union_1_L; by apply singleton_subseteq_l.
Qed.

Lemma compile_file_same_asset (opts : Options) (file name : string) :
  file <> name -> preserves (same_asset name) (compile_file opts file).
Proof.
  intros Hne s. unfold same_asset.
  destruct (compile_file_cases opts file s)
    as [(msg & t & Hrun & _)|[(r & o & out & Ha & _ & _ & Hrun)
        |(r & o & code & t & Ha & Hh & Hm & _ & Hrun & _)]];
    rewrite Hrun; simpl; try reflexivity; by rewrite lookup_insert_ne.
Qed.

Lemma compile_file_no_callback (opts : Options) (file : string) :
  preserves no_callback (compile_file opts file).
Proof.
  intros s. unfold no_callback.
  destruct (compile_file_cases opts file s)
    as [(msg & t & Hrun & _ & Hc)|[(r & o & out & _ & _ & _ & Hrun)
        |(r & o & code & t & Ha & Hh & Hm & _ & Hrun & _ & Hc)]];
    rewrite Hrun; simpl; eauto.
  exists []. by rewrite app_nil_r.
Qed.

Lemma compile_file_minify_once (opts : Options) (file : string) (s : State) :
  minify_calls (trace (compile_file opts file s).2) <= S (minify_calls (trace s)).
Proof.
  destruct (compile_file_cases opts file s)
    as [(msg & t & Hrun & Hm & _)|[(r & o & out & _ & _ & _ & Hrun)
        |(r & o & code & t & Ha & Hh & _ & _ & Hrun & Hm & _)]];
    rewrite Hrun; simpl; rewrite ?minify_calls_app; lia.
Qed.

Lemma compile_file_one_error (opts : Options) (file : string) (s : State) :
  length (errors (compile_file opts file s).2) <= S (length (errors s)).
Proof.
  destruct (compile_file_cases opts file s)
    as [(msg & t & Hrun & Hm & _)|[(r & o & out & _ & _ & _ & Hrun)
        |(r & o & code & t & Ha & Hh & _ & _ & Hrun & Hm & _)]];
    rewrite Hrun; simpl; rewrite ?length_app; simpl; lia.
Qed.

(** The files [_compile] works on. *)
Lemma compile_run (opts : Options) (chunks : list Chunk) (s : State) :
  let l := filter (fun file => matchObject (selection opts) file)
                  (candidate_files chunks (additionalChunkAssets s)) in
  let s1 := (forEach (compile_file opts) l s).2 in
  _compile opts chunks s = (Ok tt, set_trace (trace s1 ++ [CallCallback]) s1).
Proof.
  intros l s1. unfold _compile, mbind, M_bind, gets. fold l.
  pose proof (forEach_returns (compile_file opts) l s
                (compile_file_returns opts)) as Hloop.
  subst s1. rewrite Hloop. reflexivity.
Qed.

End Steps.

(** ** What a whole run of [_compile] does and does not do *)

Section Runs.
Context `{Host}.

(** X1. The candidate files are the additional chunk assets followed by the
    files of each chunk, in the order of the chunks; nothing is removed, so
    a name listed twice is a candidate twice. *)
Theorem candidate_files_in_order (chunks : list Chunk) (additional : list string) :
  candidate_files chunks additional
  = (additional ++ concat (map files chunks))%list.
Proof.
  unfold candidate_files. revert additional.
  induction chunks as [|c chunks IH]; intros additional; simpl.
  - by rewrite app_nil_r.
  - rewrite IH. by rewrite <- app_assoc.
Qed.

(** X2. [_compile] never adds or removes an asset name: the compilation
    ends with exactly the names it started with (so no sidecar file comes
    out of a run). *)
Theorem compile_keeps_asset_names (opts : Options) (chunks : list Chunk)
  (s : State) :
  dom (assets (_compile opts chunks s).2) = dom (assets s).
Proof.
  rewrite compile_run. simpl.
  apply (preserves_forEach same_names). apply compile_file_same_names.
Qed.

(** X3. A name that is not a matching candidate keeps its entry in the
    asset map, and the object it names keeps its body. *)
Theorem compile_leaves_other_files (opts : Options) (chunks : list Chunk)
  (s : State) (name : string) :
  matchObject (selection opts) name = false \/
  name ∉ candidate_files chunks (additionalChunkAssets s) ->
  let s' := (_compile opts chunks s).2 in
  assets s' !! name = assets s !! name /\
  (forall r o, assets s !! name = Some r -> heap s !! r = Some o ->
     exists o', heap s' !! r = Some o' /\ body o' = body o).
Proof.
  intros Hname s'. subst s'. rewrite compile_run. simpl. split.
  - apply (preserves_forEach_elem (same_asset name)).
    intros file Hfile. apply compile_file_same_asset. intros ->.
    apply list_elem_of_filter in Hfile as [Hmatch Hin].
    destruct Hname as [Hno|Hno]; [|done].
    rewrite Hno in Hmatch. done.
  - intros r o _ Hr.
    match goal with
    | |- context [forEach ?f ?l s] =>
        destruct (preserves_forEach heap_grows f l
                    (compile_file_heap_grows opts) s r o Hr) as (o' & ? & ? & _)
    end.
    eauto.
Qed.

(** X4. A run never rewrites a source object that was there: each keeps its
    body, and a marker, once set, stays the same. *)
Theorem compile_never_rewrites_objects (opts : Options) (chunks : list Chunk)
  (s : State) (r : ref) (o : Obj) :
  heap s !! r = Some o ->
  exists o', heap (_compile opts chunks s).2 !! r = Some o' /\
             body o' = body o /\
             (forall out, __UglifyJsPlugin o = Some out ->
                          __UglifyJsPlugin o' = Some out).
Proof.
  intros Hr. rewrite compile_run. simpl.
  match goal with
  | |- context [forEach ?f ?l s] =>
      exact (preserves_forEach heap_grows f l
               (compile_file_heap_grows opts) s r o Hr)
  end.
Qed.

(** X5. A run only appends to [compilation.errors], and at most one
    message per matching candidate. *)
Theorem compile_appends_errors (opts : Options) (chunks : list Chunk) (s : State) :
  let s' := (_compile opts chunks s).2 in
  errors s `prefix_of` errors s' /\
  length (errors s') <=
  length (errors s)
  + length (filter (fun file => matchObject (selection opts) file)
                   (candidate_files chunks (additionalChunkAssets s))).
Proof.
  intros s'. subst s'. rewrite compile_run. simpl. split.
  - apply (preserves_forEach errors_grow). apply compile_file_errors_grow.
  - apply (forEach_measure (fun st => length (errors st))).
    apply compile_file_one_error.
Qed.

(** X6. A run calls the minifier at most once per matching candidate. *)
Theorem compile_minifies_at_most_once_per_file (opts : Options)
  (chunks : list Chunk) (s : State) :
  minify_calls (trace (_compile opts chunks s).2) <=
  minify_calls (trace s)
  + length (filter (fun file => matchObject (selection opts) file)
                   (candidate_files chunks (additionalChunkAssets s))).
Proof.
  rewrite compile_run. cbn [snd trace set_trace].
  rewrite minify_calls_app. replace (minify_calls [CallCallback]) with 0 by done.
  rewrite Nat.add_0_r.
  apply (forEach_measure (fun st => minify_calls (trace st))).
  apply compile_file_minify_once.
Qed.

(** X7. A run calls the host's continuation exactly once, and as the last
    thing it does. *)
Theorem compile_calls_back_once (opts : Options) (chunks : list Chunk) (s : State) :
  exists t, trace (_compile opts chunks s).2 = (trace s ++ t ++ [CallCallback])%list /\
            callback_calls t = 0.
Proof.
  rewrite compile_run. cbn [snd trace set_trace].
  destruct (preserves_forEach no_callback (compile_file opts)
              (filter (fun file => matchObject (selection opts) file)
                      (candidate_files chunks (additionalChunkAssets s)))
              (compile_file_no_callback opts) s) as (t & Ht & Hc).
  exists t. rewrite Ht, <- app_assoc. done.
Qed.

(** X8. With no matching candidate (no chunks and no additional assets, or
    names the selection rejects), a run calls the continuation and changes
    nothing else. *)
Theorem compile_nothing_to_do (opts : Options) (chunks : list Chunk) (s : State) :
  Forall (fun file => matchObject (selection opts) file = false)
         (candidate_files chunks (additionalChunkAssets s)) ->
  _compile opts chunks s = (Ok tt, set_trace (trace s ++ [CallCallback]) s).
Proof.
  intros Hnone. rewrite compile_run.
  replace (filter _ _) with (@nil string); [reflexivity|].
  symmetry. induction Hnone as [|file l Hfile _ IH]; [done|].
  rewrite filter_cons_False; [exact IH|]. rewrite Hfile. intros [].
Qed.

End Runs.

(** ** One file: the ways a pass can go *)

Section Passes.
Context `{Host}.

(** With source maps on and a [sourceAndMap] method, that method is the one
    accessor called. *)
Lemma processSourceMap_combined (opts : Options) (r : ref) (o : Obj)
  (text : option string) (m : option string) (s : State) :
  sourceMap opts = true ->
  heap s !! r = Some o ->
  has_sourceAndMap o = true ->
  source_and_map (heap s) r = Ok (text, m) ->
  _processSourceMap opts r s
  = (_ ← new_SourceMapConsumer m; mret text,
     set_trace (trace s ++ [CallSourceAndMap r; NewSourceMapConsumer m]) s).
Proof.
  intros Hon Hr Hsam Hboth.
  unfold _processSourceMap, mbind, M_bind. rewrite Hon. cbn [negb mret M_ret].
  unfold deref. rewrite Hr, Hsam.
  rewrite call_sourceAndMap_run. cbn [heap set_trace]. rewrite Hboth.
  cbn [mret M_ret fst snd]. unfold emit, modify, lift.
  cbn [heap set_trace trace]. rewrite <- !app_assoc. cbn [app].
  destruct (new_SourceMapConsumer m); reflexivity.
Qed.

(** Whatever [sourceMap] is, an asset that answers both [source] and
    [sourceAndMap] has its map handed to the consumer. *)
Lemma processSourceMap_any (opts : Options) (r : ref) (o : Obj)
  (text text' : option string) (m : option string) (s : State) :
  heap s !! r = Some o ->
  has_sourceAndMap o = true ->
  source_text stack_limit (heap s) r = Ok text ->
  source_and_map (heap s) r = Ok (text', m) ->
  exists t, forallb is_accessor t = true /\
    _processSourceMap opts r s
    = (_ ← new_SourceMapConsumer m; mret text', set_trace (trace s ++ t) s).
Proof.
  intros Hr Hsam Htext Hboth. destruct (sourceMap opts) eqn:Hmap.
  - eexists. split; [|by apply (processSourceMap_combined _ _ o)]. done.
  - eexists. split; [|by apply (processSourceMap_disabled _ _ o text)]. done.
Qed.

(** X9. A candidate with no asset under its name: one message is recorded
    (the file name, the engine name and the stack of the [TypeError]), no
    accessor or minifier is called, and nothing else changes. *)
Theorem compile_file_without_asset (opts : Options) (file : string) (s : State) :
  assets s !! file = None ->
  exists stack,
    compile_file opts file s
    = (Ok tt, set_errors (errors s ++ [file ++ " from UglifyJs" ++ LF ++ stack]) s).
Proof.
  intros Ha. rewrite compile_file_unfold, (processFile_missing _ _ _ Ha).
  eexists. destruct s; reflexivity.
Qed.

(** X10. The pass that succeeds.  For an unmarked asset with a
    [sourceAndMap] method, source maps on and extraction off: the minifier
    is called once, on the text [sourceAndMap] returned and with the
    [mangle], [toplevel] and [sourceMap] options; the [code] of its result
    becomes a new [RawSource], installed under the file name and recorded
    as the marker of the old object, whose body is kept.  The new asset
    returns that [code] as its text and has no source map.  (The [code] is
    taken as it is, so this is also the pass over a file for which the
    minifier returned an [error] and no code.) *)
Theorem processFile_success (opts : Options) (file : string) (s : State)
  (r : ref) (o : Obj) (text : option string) (result : MinifyResult)
  (m : option string) (c : Consumer) :
  assets s !! file = Some r ->
  heap s !! r = Some o ->
  __UglifyJsPlugin o = None ->
  has_sourceAndMap o = true ->
  sourceMap opts = true ->
  truthy_extract (extractComments opts) = false ->
  source_and_map (heap s) r = Ok (text, m) ->
  new_SourceMapConsumer m = Ok c ->
  minify text (minify_options opts) = Ok result ->
  let out := length (heap s) in
  let s' := (_processFile opts file s).2 in
  _processFile opts file s
  = (Ok tt, install_source file r o (new_RawSource (r_code result))
              (set_trace (trace s ++ [CallSourceAndMap r; NewSourceMapConsumer m;
                                      CallMinify text (minify_options opts)]) s)) /\
  assets s' = <[file := out]> (assets s) /\
  heap s' !! out = Some (mkObj (new_RawSource (r_code result)) None) /\
  heap s' !! r = Some (mkObj (body o) (Some out)) /\
  (forall fuel, source_text fuel (heap s') out = Ok (r_code result)) /\
  source_map (heap s') out = Ok None /\
  errors s' = errors s /\
  (forall code, r_code result = Some code ->
     s' = install file r o code
            (set_trace (trace s ++ [CallSourceAndMap r; NewSourceMapConsumer m;
                                    CallMinify text (minify_options opts)]) s) /\
     heap s' !! out = Some (mkObj (RawSource code) None)).
Proof.
  intros Ha Hr Hm Hsam Hon Hex Hboth Hc Hmin out s'. subst s'.
  rewrite (processFile_fresh_run _ _ _ _ _ Ha Hr Hm).
  rewrite (processSourceMap_combined _ _ _ _ _ _ Hon Hr Hsam Hboth).
  rewrite Hc. cbn [mbind outcome_bind mret outcome_ret].
  cbn zeta. cbn [trace set_trace]. rewrite Hmin, Hex. rewrite <- app_assoc.
  cbn [app]. split; [reflexivity|].
  assert (Hlt : r < length (heap s)) by (by apply lookup_lt_Some in Hr).
  assert (Hout : (<[r := mkObj (body o) (Some out)]>
                    (heap s ++ [mkObj (new_RawSource (r_code result)) None])%list)
                 !! out
                 = Some (mkObj (new_RawSource (r_code result)) None)).
  { rewrite list_lookup_insert_ne by (subst out; lia).
    rewrite lookup_app_r by (subst out; lia).
    subst out. by rewrite Nat.sub_diag. }
  cbn [snd install_source heap assets set_heap set_assets set_trace].
  split; [done|]. split; [exact Hout|].
  split; [apply list_lookup_insert_eq; rewrite length_app; simpl; lia|].
  split; [intros fuel; by apply (source_text_new_raw _ _ _ _ None)|].
  split.
  { unfold source_map. fold out. rewrite Hout.
    by destruct (r_code result). }
  split; [done|].
  intros code Hcode. unfold install. fold out in Hout. rewrite Hcode in *.
  split; [reflexivity|exact Hout].
Qed.

(** X11. An asset without a [sourceAndMap] method, source maps on: [map]
    is called first and [source] second.  If [map] throws, [source] is
    never called; if either throws, no consumer is built; otherwise the
    consumer is built from the map and the text of [source] is the input. *)
Theorem processSourceMap_separate_accessors (opts : Options) (r : ref)
  (a : HostAsset) (mark : option ref) (s : State) :
  sourceMap opts = true ->
  heap s !! r = Some (mkObj (HostSource a) mark) ->
  h_sourceAndMap a = None ->
  _processSourceMap opts r s =
  match h_map a with
  | Throw e => (Throw e, set_trace (trace s ++ [CallMap r]) s)
  | Ok m =>
      match h_source a with
      | Throw e => (Throw e, set_trace (trace s ++ [CallMap r; CallSource r]) s)
      | Ok text =>
          (_ ← new_SourceMapConsumer m; mret (Some text),
           set_trace (trace s ++ [CallMap r; CallSource r;
                                  NewSourceMapConsumer m]) s)
      end
  end.
Proof.
  intros Hon Hr Hnone.
  unfold _processSourceMap, mbind, M_bind. rewrite Hon. cbn [negb mret M_ret].
  unfold deref. rewrite Hr. unfold has_sourceAndMap. cbn [body]. rewrite Hnone.
  rewrite bool_decide_eq_false_2 by (intros [? ?]; discriminate).
  rewrite call_map_run. unfold source_map. rewrite Hr. cbn [body].
  destruct (h_map a) as [m|e]; [|reflexivity].
  rewrite call_source_run. cbn [heap set_trace trace].
  assert (Htext : source_text stack_limit (heap s) r
                  = (v ← h_source a; mret (Some v))).
  { destruct stack_limit; simpl; rewrite Hr; reflexivity. }
  rewrite Htext, <- app_assoc. cbn [app].
  destruct (h_source a) as [text|e]; [|reflexivity].
  cbn [mbind outcome_bind mret outcome_ret M_ret].
  unfold emit, modify, lift. cbn [heap set_trace trace].
  rewrite <- app_assoc. cbn [app].
  destruct (new_SourceMapConsumer m); reflexivity.
Qed.

(** X12. When the consumer rejects the map of an asset, the file fails
    before the minifier is called, whether source maps are on or off: the
    failure is recorded, and the asset map and the store are as before. *)
Theorem rejected_map_blocks_minifier (opts : Options) (file : string)
  (s : State) (r : ref) (o : Obj) (text text' : option string)
  (m : option string) (e : Exn) :
  assets s !! file = Some r ->
  heap s !! r = Some o ->
  __UglifyJsPlugin o = None ->
  has_sourceAndMap o = true ->
  source_text stack_limit (heap s) r = Ok text ->
  source_and_map (heap s) r = Ok (text', m) ->
  new_SourceMapConsumer m = Throw e ->
  let s' := (compile_file opts file s).2 in
  errors s' = (errors s ++ [failure_message e file])%list /\
  minify_calls (trace s') = minify_calls (trace s) /\
  assets s' = assets s /\ heap s' = heap s.
Proof.
  intros Ha Hr Hm Hsam Htext Hboth Hrej s'. subst s'.
  rewrite compile_file_unfold, (processFile_fresh_run _ _ _ _ _ Ha Hr Hm).
  destruct (processSourceMap_any opts r o text text' m s Hr Hsam Htext Hboth)
    as (t & Hacc & ->).
  rewrite Hrej. cbn [mbind outcome_bind snd errors trace assets heap
                     set_errors set_trace].
  destruct (accessors_are_quiet _ Hacc) as [Hquiet _].
  rewrite minify_calls_app, Hquiet. auto with lia.
Qed.

(** X13. With [extractComments] truthy, a pass over an unmarked asset never
    succeeds: one message is recorded and the asset map and the store are
    as before.  When the input resolves and the minifier returns, the
    minifier has been called by then and its result is dropped. *)
Theorem extraction_fails_every_fresh_file (opts : Options) (file : string)
  (s : State) (r : ref) (o : Obj) :
  truthy_extract (extractComments opts) = true ->
  assets s !! file = Some r ->
  heap s !! r = Some o ->
  __UglifyJsPlugin o = None ->
  let s' := (compile_file opts file s).2 in
  (exists msg, errors s' = (errors s ++ [msg])%list) /\
  assets s' = assets s /\ heap s' = heap s /\
  (forall input s1 result,
     _processSourceMap opts r s = (Ok input, s1) ->
     minify input (minify_options opts) = Ok result ->
     minify_calls (trace s') = S (minify_calls (trace s1)) /\
     errors s' = (errors s ++ [failure_message (ReferenceError "options") file])%list).
Proof.
  intros Hex Ha Hr Hm s'. subst s'.
  rewrite compile_file_unfold, (processFile_fresh_run _ _ _ _ _ Ha Hr Hm).
  rewrite Hex.
  destruct (_processSourceMap opts r s) as [[input|e] s1] eqn:Hsm.
  - cbn zeta. destruct (minify input (minify_options opts)) as [code|e] eqn:Hmin;
      cbn [snd errors trace assets heap set_errors set_trace].
    + split; [eauto|]. split; [done|]. split; [done|].
      intros input' s1' code' [= <- <-] _.
      rewrite minify_calls_app. split; [|done].
      replace (minify_calls [CallMinify input (minify_options opts)]) with 1 by done.
      lia.
    + split; [eauto|]. split; [done|]. split; [done|].
      intros input' s1' code' [= <- <-] Hok.
      rewrite Hmin in Hok. discriminate.
  - cbn [snd errors trace assets heap set_errors set_trace].
    split; [eauto|]. split; [done|]. split; [done|].
    intros input s1' code [=].
Qed.

(** X14. The marker is on the object that was processed, not on its
    output.  After a pass over an unmarked asset has succeeded, the file
    name maps to a new, unmarked [RawSource]; a second pass over the same
    name builds a consumer from its missing map, fails if the consumer
    rejects that, and otherwise calls the minifier on what the first pass
    stored: the minified code, or [undefined] if the minifier had returned
    none. *)
Theorem second_pass_over_same_name (opts : Options) (file : string)
  (s s1 : State) (r : ref) (o : Obj) :
  assets s !! file = Some r ->
  heap s !! r = Some o ->
  __UglifyJsPlugin o = None ->
  _processFile opts file s = (Ok tt, s1) ->
  exists out code,
    out <> r /\
    assets s1 !! file = Some out /\
    heap s1 !! out = Some (mkObj (new_RawSource code) None) /\
    (forall e, new_SourceMapConsumer None = Throw e ->
       (_processFile opts file s1).1 = Throw e /\
       minify_calls (trace (_processFile opts file s1).2) = minify_calls (trace s1)) /\
    (forall c, new_SourceMapConsumer None = Ok c ->
       minify_calls (trace (_processFile opts file s1).2)
       = S (minify_calls (trace s1)) /\
       CallMinify code (minify_options opts) ∈ trace (_processFile opts file s1).2).
Proof.
  intros Ha Hr Hm Hrun.
  destruct (processFile_fresh opts _ _ _ _ Ha Hr Hm)
    as (s2 & Hs2 & [[e He]|[code Hc]]); [rewrite He in Hrun; discriminate|].
  rewrite Hc in Hrun. injection Hrun as <-.
  destruct Hs2 as (Hheap & _).
  assert (Hlt : r < length (heap s2)).
  { rewrite Hheap. by apply lookup_lt_Some in Hr. }
  set (out := length (heap s2)).
  set (s1 := install_source file r o (new_RawSource code) s2).
  assert (Hout : heap s1 !! out = Some (mkObj (new_RawSource code) None)).
  { unfold s1, install_source. cbn [heap set_heap].
    rewrite list_lookup_insert_ne by (subst out; lia).
    rewrite lookup_app_r by (subst out; lia). subst out.
    by rewrite Nat.sub_diag. }
  assert (Ha1 : assets s1 !! file = Some out).
  { unfold s1, install_source. cbn [assets set_heap set_assets].
    apply lookup_insert_eq. }
  exists out, code. split; [subst out; lia|]. split; [exact Ha1|].
  split; [exact Hout|].
  assert (Hsam : source_and_map (heap s1) out = Ok (code, None)).
  { unfold source_and_map. rewrite Hout.
    rewrite (source_text_new_raw _ _ _ _ _ Hout). unfold source_map.
    rewrite Hout. by destruct code. }
  assert (Hhas : has_sourceAndMap (mkObj (new_RawSource code) None) = true)
    by (by destruct code).
  destruct (processSourceMap_any opts out _ code code None s1 Hout Hhas
              (source_text_new_raw _ _ _ _ _ Hout) Hsam) as (t & Hacc & Hsm).
  destruct (accessors_are_quiet _ Hacc) as [Hquiet _].
  rewrite (processFile_fresh_run _ _ _ _ _ Ha1 Hout eq_refl), Hsm.
  split.
  - intros e He. rewrite He. cbn [mbind outcome_bind fst snd trace set_trace].
    rewrite minify_calls_app, Hquiet. auto with lia.
  - intros c Hc'. rewrite Hc'. cbn [mbind outcome_bind mret outcome_ret].
    cbn zeta. cbn [trace set_trace].
    assert (Hcalls : minify_calls ((trace s1 ++ t) ++
                        [CallMinify code (minify_options opts)])
                     = S (minify_calls (trace s1))).
    { rewrite !minify_calls_app, Hquiet.
      replace (minify_calls [CallMinify code (minify_options opts)]) with 1 by done.
      lia. }
    assert (Hin : CallMinify code (minify_options opts)
                  ∈ ((trace s1 ++ t) ++ [CallMinify code (minify_options opts)])%list).
    { apply elem_of_app. right. by left. }
    destruct (minify code (minify_options opts)) as [code2|e2];
      [destruct (truthy_extract (extractComments opts))|];
      cbn [snd trace set_trace install_source set_heap set_assets]; auto.
Qed.

(** X15. The catch handler, in full.  Given a source map that knows the
    failing position it throws and records nothing; in every other case it
    returns and records exactly one message, built from the failure and the
    file name alone.  Every message starts with the file name and the
    engine name on a line of their own.  A failure whose line is absent or
    0 is never looked up in the map: the message is that first line
    followed by the [msg], or by the stack when the [msg] is absent or
    empty, with no position. *)
Theorem processExeption_in_full (err : Exn) (file : string)
  (sourceMap : option Consumer) (s : State) :
  _processExeption err file sourceMap s
  = (if mapped err sourceMap
     then (Throw (ReferenceError "requestShortener"), s)
     else (Ok tt, set_errors (errors s ++ [failure_message err file]) s)) /\
  (exists detail,
     failure_message err file = file ++ " from UglifyJs" ++ LF ++ detail) /\
  (e_line err = None \/ e_line err = Some 0 ->
   _processExeption err file sourceMap s
   = (Ok tt, set_errors (errors s ++
        [file ++ " from UglifyJs" ++ LF ++
         match e_msg err with
         | Some (String _ _ as msg) => msg
         | _ => str_of (e_stack err)
         end]) s)).
Proof.
  split; [|split].
  - unfold _processExeption, mapped, failure_message.
    destruct (e_line err) as [[|n]|];
      try (destruct (e_msg err) as [[|a m]|]; reflexivity).
    destruct sourceMap as [consumer|]; [|reflexivity].
    destruct (consumer (S n) (e_col err)) as [[[|a src]|] ol oc]; reflexivity.
  - unfold failure_message.
    destruct (e_line err) as [[|n]|]; try destruct (e_msg err) as [[|a m]|];
      eexists; reflexivity.
  - unfold _processExeption.
    intros [Hline|Hline]; rewrite Hline;
      destruct (e_msg err) as [[|a m]|]; reflexivity.
Qed.

End Passes.

(** ** The marker, and the failures the loop catches *)

Section Marker.
Context `{Host}.

(** C1, for an asset object that is met again.  The marker is a property
    of the object that was processed, not of the file name and not of the
    output.  After a pass over an asset object has returned, and after any
    number of further candidate files, a pass that meets the same object
    (under whatever name maps to it then) goes through the marker test on
    lines 57-59: it returns, the name now maps to the very object the
    first pass installed, and nothing else changes.  The call trace is as
    it was (no minifier call, no accessor call, no consumer built), the
    store is as it was, the output object has the body the first pass gave
    it, and no error or warning is recorded.  The name the object was first
    processed under is not such a name: it maps to the output from then
    on. *)
Theorem processFile_second_pass_reuses (opts : Options) (f1 f2 : string)
  (between : list string) (r : ref) (s s1 : State) :
  assets s !! f1 = Some r ->
  _processFile opts f1 s = (Ok tt, s1) ->
  let s1' := (forEach (compile_file opts) between s1).2 in
  assets s1' !! f2 = Some r ->
  exists out s2,
    _processFile opts f2 s1' = (Ok tt, s2) /\
    assets s1 !! f1 = Some out /\
    assets s2 !! f2 = Some out /\
    s2 = set_assets (<[f2 := out]> (assets s1')) s1' /\
    trace s2 = trace s1' /\
    minify_calls (trace s2) = minify_calls (trace s1') /\
    heap s2 = heap s1' /\
    (forall o1, heap s1 !! out = Some o1 ->
       exists o2, heap s2 !! out = Some o2 /\ body o2 = body o1) /\
    errors s2 = errors s1' /\
    warnings s2 = warnings s1' /\
    (forall o0, heap s !! r = Some o0 -> __UglifyJsPlugin o0 = None ->
       assets s1 !! f1 <> Some r).
Proof.
  intros Ha Hrun s1' Hsame.
  destruct (processFile_marks opts f1 s s1 r Ha Hrun)
    as (o & out & Hh & Hm & Hout & Hfresh).
  pose proof (preserves_forEach heap_grows (compile_file opts) between
                (compile_file_heap_grows opts) s1) as Hgrows.
  fold s1' in Hgrows.
  destruct (Hgrows r o Hh) as (o' & Hh' & _ & Hm').
  exists out, (set_assets (<[f2 := out]> (assets s1')) s1').
  split; [exact (processFile_cached opts f2 s1' r o' out Hsame Hh' (Hm' out Hm))|].
  split; [exact Hout|].
  split; [simpl; apply lookup_insert_eq|].
  do 4 (split; [reflexivity|]).
  split; [|split; [reflexivity|split; [reflexivity|]]].
  - intros o1 Ho1. destruct (Hgrows out o1 Ho1) as (o2 & Ho2 & Hb & _).
    exists o2. split; [exact Ho2|exact Hb].
  - intros o0 Ho0 Hnone. rewrite Hout. intros [= Heq].
    exact (Hfresh o0 Ho0 Hnone Heq).
Qed.

(** C3, as the code has it.  Lines 72-76 take the [code] of what the
    minifier returns and never look at its [error].  A minifier that
    reports a failure in its result, as [uglify-es] does for a syntax
    error, is therefore not caught: on a file it rejects, a run records no
    error, replaces the asset by a [RawSource] whose value is [undefined]
    and marks the old object; the next file is processed as usual.  (A
    minifier that throws the same failure gets it recorded, with its line
    and column, and the asset left alone.)  So it is for every minifier
    and every asset: once the input is resolved and the minifier has
    returned, with extraction off, the pass records nothing and installs
    the [code] of the result, whatever its [error].  What is thrown is
    caught: a throw of [_processFile] becomes one message at the end of
    [compilation.errors], and the rest of the state, the calls recorded
    apart, is the one before the file.  [_compile] is that step taken for
    every matching candidate in order, whatever happened to the files
    before, followed by the call of the continuation; it never throws. *)
Theorem reported_failure_is_not_caught (opts : Options) :
  (let s := Sample.state [Sample.mapped_asset "function(";
                          Sample.mapped_asset "var a = 1;"]
                         [("bad.js", 0); ("a.js", 1)] in
   let reporting := (@_compile Sample.strict_host Sample.options
                       [mkChunk ["bad.js"; "a.js"]] s).2 in
   let throwing := (@_compile Sample.host Sample.options
                      [mkChunk ["bad.js"; "a.js"]] s).2 in
   errors reporting = [] /\
   assets reporting !! "bad.js" = Some 2 /\
   heap reporting !! 2 = Some (mkObj RawSourceUndefined None) /\
   @source_text Sample.strict_host 8 (heap reporting) 2 = Ok None /\
   heap reporting !! 0
   = Some (mkObj (body (Sample.mapped_asset "function(")) (Some 2)) /\
   assets reporting !! "a.js" = Some 3 /\
   heap reporting !! 3 = Some (mkObj (RawSource "min:var a = 1;") None) /\
   errors throwing
   = ["bad.js from UglifyJs" ++ LF ++ "Unexpected token: eof [bad.js:1,9]"] /\
   assets throwing !! "bad.js" = Some 0 /\
   heap throwing !! 0 = Some (Sample.mapped_asset "function(")) /\
  (forall file s r o input s1 result,
     assets s !! file = Some r ->
     heap s !! r = Some o ->
     __UglifyJsPlugin o = None ->
     truthy_extract (extractComments opts) = false ->
     _processSourceMap opts r s = (Ok input, s1) ->
     minify input (minify_options opts) = Ok result ->
     let s' := (compile_file opts file s).2 in
     errors s' = errors s /\
     assets s' !! file = Some (length (heap s)) /\
     heap s' !! length (heap s)
     = Some (mkObj (new_RawSource (r_code result)) None) /\
     heap s' !! r = Some (mkObj (body o) (Some (length (heap s))))) /\
  (forall file s,
     compile_file opts file s =
     match _processFile opts file s with
     | (Ok _, s1) => (Ok tt, s1)
     | (Throw e, s1) =>
         (Ok tt, set_errors (errors s ++ [failure_message e file])
                            (set_trace (trace s1) s))
     end) /\
  (forall chunks s,
     let candidates := filter (fun file => matchObject (selection opts) file)
                         (candidate_files chunks (additionalChunkAssets s)) in
     let s' := fold_left (fun st file => (compile_file opts file st).2)
                         candidates s in
     _compile opts chunks s = (Ok tt, set_trace (trace s' ++ [CallCallback]) s')).
Proof.
  split; [vm_compute; repeat split|].
  split.
  { intros file s r o input s1 result Ha Hr Hm Hex Hsm Hmin s'. subst s'.
    rewrite compile_file_unfold, (processFile_fresh_run _ _ _ _ _ Ha Hr Hm).
    pose proof (processSourceMap_same_but_trace opts r s) as Hsame.
    rewrite Hsm in *. cbn [snd] in Hsame. destruct Hsame as (Hheap & _ & Herr & _).
    cbv zeta. rewrite Hmin, Hex.
    cbn [snd install_source heap assets errors set_heap set_assets set_trace].
    rewrite Hheap.
    assert (Hlt : r < length (heap s)) by (by apply lookup_lt_Some in Hr).
    split; [exact Herr|]. split; [apply lookup_insert_eq|]. split.
    - rewrite list_lookup_insert_ne by lia.
      rewrite lookup_app_r by lia. by rewrite Nat.sub_diag.
    - apply list_lookup_insert_eq. rewrite length_app. lia. }
  split; [apply compile_file_unfold|].
  intros chunks s candidates s'. rewrite compile_run. cbv zeta.
  fold candidates.
  rewrite (forEach_returns (compile_file opts) candidates s
             (compile_file_returns opts)).
  reflexivity.
Qed.

End Marker.

(** ** The sidecar file, for any number of batches *)

Section Batches.
Context `{Host}.

Lemma append_assoc (a b c : string) : (a ++ b) ++ c = a ++ (b ++ c).
Proof.
  induction a as [|x a IH]; [reflexivity|].
  change (String x ((a ++ b) ++ c) = String x (a ++ (b ++ c))). by rewrite IH.
Qed.

(** Joining after gluing the first two elements. *)
Lemma join_glue (sep a b : string) (l : list string) :
  join sep ((a ++ sep ++ b) :: l) = join sep (a :: b :: l).
Proof.
  unfold join. destruct l as [|c l]; [reflexivity|].
  cbn [String.concat]. by rewrite !append_assoc.
Qed.

Lemma plain_text_source (fuel : nat) (h : list Obj) (r : ref) (o : Obj)
  (v : string) :
  h !! r = Some o -> plain_text o = Some v ->
  source_text fuel h r = Ok (Some v).
Proof.
  intros Hr Hv. unfold plain_text in Hv.
  destruct fuel; simpl; rewrite Hr;
    destruct (body o) as [v'| |cs|a]; try discriminate;
    try (injection Hv as ->; reflexivity);
    destruct (h_source a); simpl in *;
    solve [by injection Hv as -> | discriminate].
Qed.

(** Plain children read the same at every depth. *)
Lemma children_text_plain (fuel : nat) (h : list Obj) (cs : list Child)
  (t : string) :
  plain_children h cs t -> children_text (source_text fuel h) cs = Ok t.
Proof.
  induction 1 as [|s cs t _ IH|r o v cs t Hr Hv _ IH]; simpl.
  - reflexivity.
  - by rewrite IH.
  - by rewrite (plain_text_source _ _ _ _ _ Hr Hv), IH.
Qed.

Lemma plain_children_app (h : list Obj) (cs1 cs2 : list Child) (t1 t2 : string) :
  plain_children h cs1 t1 -> plain_children h cs2 t2 ->
  plain_children h (cs1 ++ cs2) (t1 ++ t2).
Proof.
  intros H1 H2. induction H1 as [|s cs t _ IH|r o v cs t Hr Hv _ IH]; simpl.
  - exact H2.
  - rewrite append_assoc. by constructor.
  - rewrite append_assoc. by econstructor.
Qed.

(** Plain children stay plain in a store that keeps the plain objects. *)
Lemma plain_children_mono (h h' : list Obj) (cs : list Child) (t : string) :
  (forall r o v, h !! r = Some o -> plain_text o = Some v -> h' !! r = Some o) ->
  plain_children h cs t -> plain_children h' cs t.
Proof.
  intros Hkeep. induction 1 as [|s cs t _ IH|r o v cs t Hr Hv _ IH].
  - constructor.
  - by constructor.
  - econstructor; eauto.
Qed.

Lemma sidecar_reads_text (s : State) (name t : string) :
  0 < stack_limit -> sidecar_reads s name t ->
  exists r, assets s !! name = Some r /\
            source_text stack_limit (heap s) r = Ok (Some t).
Proof.
  intros Hlimit (r & o & Ha & Hr & [Hplain|(cs & Hb & Hcs)]); exists r.
  - split; [done|]. by apply (plain_text_source _ _ _ o).
  - split; [done|]. destruct stack_limit as [|fuel]; [lia|].
    destruct o as [b mark]. simpl in Hb. subst b.
    rewrite (source_text_concat _ _ _ _ _ Hr).
    by rewrite (children_text_plain _ _ _ _ Hcs).
Qed.

(** One more batch: the text gains a line feed and the batch; the plain
    objects of the store stay as they are; only the sidecar name moves. *)
Lemma write_sidecar_step (name : string) (b : list string) (t : string)
  (s : State) :
  sidecar_reads s name t ->
  exists s', write_sidecar name b s = (Ok tt, s') /\
    sidecar_reads s' name (t ++ LF ++ batch b) /\
    (forall r o v, heap s !! r = Some o -> plain_text o = Some v ->
                   heap s' !! r = Some o) /\
    (forall n, n <> name -> assets s' !! n = assets s !! n) /\
    trace s' = trace s.
Proof.
  intros (r & o & Ha & Hr & Hcase).
  assert (Hlt : r < length (heap s)) by (by apply lookup_lt_Some in Hr).
  assert (Hnew : forall h' : list Obj,
            (heap s ++ mkObj (RawSource (batch b)) None :: h')%list
              !! length (heap s)
            = Some (mkObj (RawSource (batch b)) None)).
  { intros h'. rewrite lookup_app_r by lia. by rewrite Nat.sub_diag. }
  assert (Hbatch : forall h, h !! length (heap s)
                             = Some (mkObj (RawSource (batch b)) None) ->
            plain_children h [CStr LF; CSrc (length (heap s))] (LF ++ batch b)).
  { intros h Hh. constructor.
    rewrite <- (append_empty_r (batch b)).
    econstructor; [exact Hh|reflexivity|constructor]. }
  destruct Hcase as [Hplain|(cs & Hb & Hcs)].
  - (* a plain object: wrapped *)
    rewrite (write_sidecar_wrap _ _ _ _ _ Ha Hr).
    2:{ intros children Hc. unfold plain_text in Hplain. by rewrite Hc in Hplain. }
    eexists. split; [reflexivity|]. split; [|split; [|split; [|reflexivity]]].
    + eexists (S (length (heap s))), _. cbn [assets heap set_assets set_heap].
      split; [apply lookup_insert_eq|]. split.
      * rewrite lookup_app_r by lia.
        replace (S (length (heap s)) - length (heap s)) with 1 by lia.
        reflexivity.
      * right. eexists. split; [reflexivity|].
        econstructor.
        -- by apply lookup_app_l_Some.
        -- exact Hplain.
        -- apply Hbatch, Hnew.
    + intros r' o' v Hr' _. cbn [heap set_assets set_heap].
      by apply lookup_app_l_Some.
    + intros n Hn. cbn [assets set_assets set_heap]. by rewrite lookup_insert_ne.
  - (* a ConcatSource: added to in place *)
    destruct o as [bo mark]. simpl in Hb. subst bo.
    rewrite (write_sidecar_add _ _ _ _ _ _ Ha Hr).
    assert (Hkeep : forall r' o' v, heap s !! r' = Some o' ->
              plain_text o' = Some v ->
              (<[r := mkObj (ConcatSource (cs ++ [CStr LF; CSrc (length (heap s))]))
                        mark]>
                 (heap s ++ [mkObj (RawSource (batch b)) None])%list) !! r'
              = Some o').
    { intros r' o' v Hr' Hv. rewrite list_lookup_insert_ne.
      - by apply lookup_app_l_Some.
      - intros <-. rewrite Hr in Hr'. injection Hr' as <-. discriminate. }
    eexists. split; [reflexivity|]. split; [|split; [|split; [|reflexivity]]].
    + eexists r, _. cbn [assets heap set_heap]. split; [exact Ha|]. split.
      * apply list_lookup_insert_eq. rewrite length_app. lia.
      * right. eexists. split; [reflexivity|].
        apply plain_children_app.
        -- by apply (plain_children_mono (heap s)).
        -- apply Hbatch. rewrite list_lookup_insert_ne by lia. apply Hnew.
    + intros r' o' v Hr' Hv. cbn [heap set_heap]. by apply (Hkeep r' o' v).
    + intros n _. reflexivity.
Qed.

(** Any number of batches on top of what is there. *)
Lemma write_sidecar_all (name : string) (bs : list (list string)) (t : string)
  (s : State) :
  sidecar_reads s name t ->
  exists s', forEach (write_sidecar name) bs s = (Ok tt, s') /\
    sidecar_reads s' name (join LF (t :: map batch bs)) /\
    (forall r o v, heap s !! r = Some o -> plain_text o = Some v ->
                   heap s' !! r = Some o) /\
    (forall n, n <> name -> assets s' !! n = assets s !! n) /\
    trace s' = trace s.
Proof.
  revert t s. induction bs as [|b bs IH]; intros t s Hreads.
  - exists s. simpl. auto.
  - destruct (write_sidecar_step name b t s Hreads)
      as (s1 & Hrun & Hreads1 & Hkeep1 & Hnames1 & Htrace1).
    destruct (IH _ _ Hreads1)
      as (s2 & Hrun2 & Hreads2 & Hkeep2 & Hnames2 & Htrace2).
    exists s2. cbn [forEach]. unfold mbind, M_bind. rewrite Hrun.
    split; [exact Hrun2|]. split; [|split; [|split]].
    + cbn [map]. by rewrite <- join_glue.
    + intros r o v Hr Hv. eapply Hkeep2; eauto.
    + intros n Hn. rewrite Hnames2, Hnames1; auto.
    + congruence.
Qed.

End Batches.

Section SidecarMethod.
Context `{Host}.

Lemma forEach_ext {A} (f g : A -> M unit) (l : list A) (s : State) :
  (forall a s', f a s' = g a s') -> forEach f l s = forEach g l s.
Proof.
  intros Hfg. revert s. induction l as [|a l IH]; intros s; [reflexivity|].
  simpl. unfold mbind, M_bind. rewrite Hfg.
  destruct (g a s) as [[[]|e] s1]; [apply IH|reflexivity].
Qed.

(** With the name given and the banner off, the method is lines 206-219. *)
Lemma sidecar_options_run (opts : Options) (name : string) (cs : list string)
  (s : State) :
  sidecar_options opts name ->
  _writeExtractedComments opts cs s = write_sidecar name cs s.
Proof.
  intros (o & He & Hf & Hname & Hb).
  destruct name as [|a name]; [discriminate|].
  apply (writeExtractedComments_without_banner _ _ _ _ BnFalse).
  - rewrite He. by apply comments_file_explicit.
  - rewrite He. simpl. by rewrite Hb.
  - by left.
Qed.

(** Lines 206-219 never throw, read no asset, record nothing, keep every
    object that is not a [ConcatSource] and every other name. *)
Lemma write_sidecar_frame (name : string) (cs : list string) (s : State) :
  let s' := (write_sidecar name cs s).2 in
  (write_sidecar name cs s).1 = Ok tt /\
  trace s' = trace s /\ errors s' = errors s /\ warnings s' = warnings s /\
  (forall n, n <> name -> assets s' !! n = assets s !! n) /\
  (forall r o, heap s !! r = Some o ->
               (forall children, body o <> ConcatSource children) ->
               heap s' !! r = Some o).
Proof.
  unfold write_sidecar, mbind, M_bind, alloc, get_asset, gets.
  cbn [heap assets set_heap].
  destruct (assets s !! name) as [r|] eqn:Ha.
  2:{ destruct (inherited name); cbn -[String.append join LF];
        do 4 (split; [done|]); (split;
        [ intros n Hn; by rewrite lookup_insert_ne
        | intros r o Hr _; rewrite <- ?app_assoc; by apply lookup_app_l_Some ]). }
  rewrite !heap_set_heap.
  destruct ((heap s ++ [mkObj (RawSource (join (LF ++ LF) cs ++ LF)) None])%list
              !! r) as [[[v| |children|a] mark]|] eqn:Hr;
    cbn -[String.append join LF]; do 4 (split; [done|]); split;
    try (intros n Hn; by rewrite ?lookup_insert_ne);
    try (intros r' o' Hr' _; rewrite <- app_assoc; by apply lookup_app_l_Some).
  intros r' o' Hr' Hv'. rewrite list_lookup_insert_ne.
  - by apply lookup_app_l_Some.
  - intros <-. rewrite (lookup_app_l_Some _ _ _ _ Hr') in Hr.
    injection Hr as ->. by eapply Hv'.
Qed.

(** An object that reads as plain text is no [ConcatSource]. *)
Lemma plain_text_not_concat (o : Obj) (v : string) :
  plain_text o = Some v -> forall children, body o <> ConcatSource children.
Proof. unfold plain_text. intros Hv children Hb. by rewrite Hb in Hv. Qed.

(** Lines 222-230 never change the state. *)
Lemma write_banner_state (e : ExtractSpec) (commentsFile : string) (s : State) :
  (write_banner e commentsFile s).2 = s.
Proof.
  unfold write_banner, lift, mbind, M_bind.
  destruct (get_banner e) as [[| |t|f]|err]; try reflexivity;
    match goal with
    | |- context [truthy_str ?b] => destruct (truthy_str b)
    end; reflexivity.
Qed.

(** X16. The sidecar of several files.  With the sidecar name given and
    the banner off, writing the batches of one or more files under a name
    that holds no asset yet, and that is none of the names the asset object
    inherits from [Object.prototype] ([constructor], [toString] and the
    like, which the [in] test of line 207 finds), leaves one asset under
    that name, whose text is the batches in order, a line feed between
    every two (each batch being the comments joined by a blank line, with a
    line feed at the end); the other names keep their entries. *)
Theorem sidecar_collects_batches (opts : Options) (name : string)
  (b : list string) (bs : list (list string)) (s : State) :
  sidecar_options opts name ->
  assets s !! name = None ->
  inherited name = false ->
  0 < stack_limit ->
  exists s' r,
    forEach (_writeExtractedComments opts) (b :: bs) s = (Ok tt, s') /\
    assets s' !! name = Some r /\
    source_text stack_limit (heap s') r
    = Ok (Some (join LF (map batch (b :: bs)))) /\
    (forall n, n <> name -> assets s' !! n = assets s !! n).
Proof.
  intros Hopts Ha Hown Hlimit.
  rewrite (forEach_ext _ (write_sidecar name))
    by (intros; by apply sidecar_options_run).
  cbn [forEach]. unfold mbind, M_bind. rewrite (write_sidecar_new _ _ _ Ha Hown).
  set (s1 := set_assets _ _).
  assert (Hreads : sidecar_reads s1 name (batch b)).
  { exists (length (heap s)), (mkObj (RawSource (batch b)) None).
    subst s1. cbn [assets heap set_assets set_heap].
    split; [apply lookup_insert_eq|]. split; [|by left].
    rewrite lookup_app_r by lia. by rewrite Nat.sub_diag. }
  destruct (write_sidecar_all name bs _ _ Hreads)
    as (s2 & Hrun & Hreads2 & _ & Hnames & _).
  destruct (sidecar_reads_text _ _ _ Hlimit Hreads2) as (r & Hr & Htext).
  exists s2, r. split; [exact Hrun|]. split; [exact Hr|]. split; [exact Htext|].
  intros n Hn. rewrite (Hnames n Hn). subst s1. cbn [assets set_assets set_heap].
  by rewrite lookup_insert_ne.
Qed.

(** X17. A sidecar name that already holds an asset.  When the asset is
    not a [ConcatSource] and reads [t], the batches written under its name
    come after [t], a line feed before each; the old object itself is not
    changed, and no accessor of it is called. *)
Theorem sidecar_appends_to_existing (opts : Options) (name : string)
  (bs : list (list string)) (s : State) (r : ref) (o : Obj) (t : string) :
  sidecar_options opts name ->
  assets s !! name = Some r ->
  heap s !! r = Some o ->
  plain_text o = Some t ->
  0 < stack_limit ->
  exists s' r',
    forEach (_writeExtractedComments opts) bs s = (Ok tt, s') /\
    assets s' !! name = Some r' /\
    source_text stack_limit (heap s') r'
    = Ok (Some (join LF (t :: map batch bs))) /\
    heap s' !! r = Some o /\
    trace s' = trace s.
Proof.
  intros Hopts Ha Hr Hplain Hlimit.
  rewrite (forEach_ext _ (write_sidecar name))
    by (intros; by apply sidecar_options_run).
  assert (Hreads : sidecar_reads s name t) by (exists r, o; auto).
  destruct (write_sidecar_all name bs _ _ Hreads)
    as (s2 & Hrun & Hreads2 & Hkeep & _ & Htrace).
  destruct (sidecar_reads_text _ _ _ Hlimit Hreads2) as (r' & Hr' & Htext).
  exists s2, r'. split; [exact Hrun|]. split; [exact Hr'|].
  split; [exact Htext|]. split; [by apply (Hkeep r o t)|exact Htrace].
Qed.

(** X18. What the method leaves alone, whatever the options and whether it
    returns or throws: it calls no accessor, records no error and no
    warning, changes no object that is not a [ConcatSource], and changes no
    entry of the asset map but the one of the sidecar name. *)
Theorem writeExtractedComments_frame (opts : Options) (cs : list string)
  (s : State) :
  let s' := (_writeExtractedComments opts cs s).2 in
  trace s' = trace s /\ errors s' = errors s /\ warnings s' = warnings s /\
  (forall r o v, heap s !! r = Some o -> plain_text o = Some v ->
                 heap s' !! r = Some o) /\
  (forall n, comments_file (extractComments opts) <> Ok n ->
             assets s' !! n = assets s !! n) /\
  (forall r o, heap s !! r = Some o ->
               (forall children, body o <> ConcatSource children) ->
               heap s' !! r = Some o).
Proof.
  intros s'.
  destruct (comments_file (extractComments opts)) as [name|e] eqn:Hname.
  - assert (Hs' : s' = (write_sidecar name cs s).2).
    { subst s'. unfold _writeExtractedComments, lift, mbind, M_bind.
      rewrite Hname.
      pose proof (write_sidecar_frame name cs s) as (Hok & _).
      destruct (write_sidecar name cs s) as [[[]|e] s1]; simpl in *;
        [apply write_banner_state|discriminate]. }
    rewrite Hs'.
    destruct (write_sidecar_frame name cs s) as (_ & Ht & He & Hw & Hn & Hp).
    do 3 (split; [done|]).
    split; [intros r o v Hr Hv; eapply Hp, plain_text_not_concat; eauto|].
    split; [|exact Hp]. intros n Hne. apply Hn. congruence.
  - assert (Hs' : s' = s).
    { subst s'. unfold _writeExtractedComments, lift, mbind, M_bind.
      by rewrite Hname. }
    rewrite Hs'. auto 10.
Qed.

(** X19. When the method returns.  It returns normally exactly when
    [extractComments] is an object whose [filename] is a non-empty string
    and whose [banner] is [false] or a function that returns an empty
    banner for that name; in every other case it throws. *)
Theorem writeExtractedComments_returns_iff (opts : Options) (cs : list string)
  (s : State) :
  (_writeExtractedComments opts cs s).1 = Ok tt <->
  exists o name,
    extractComments opts = EObj o /\ filename o = FnStr name /\
    truthy_str name = true /\
    (banner o = BnFalse \/
     exists f, banner o = BnFun f /\ truthy_str (f name) = false).
Proof.
  split.
  - intros Hok.
    destruct (comments_file (extractComments opts)) as [name|e] eqn:Hname.
    2:{ unfold _writeExtractedComments, lift, mbind, M_bind in Hok.
        rewrite Hname in Hok. discriminate. }
    destruct (comments_file_needs_explicit_name _ _ Hname) as (o & He & Hf & Ht).
    exists o, name. repeat split; try done.
    destruct (banner o) as [| |t|f] eqn:Hb; [| by left | |].
    + rewrite (writeExtractedComments_banner_throws _ _ _ name BnAbsent) in Hok;
        try done. rewrite He. simpl. by rewrite Hb.
    + rewrite (writeExtractedComments_banner_throws _ _ _ name (BnStr t)) in Hok;
        try done. rewrite He. simpl. by rewrite Hb.
    + right. exists f. split; [done|].
      destruct (truthy_str (f name)) eqn:Hfn; [|done].
      rewrite (writeExtractedComments_banner_throws _ _ _ name (BnFun f)) in Hok;
        try done.
      * rewrite He. simpl. by rewrite Hb.
      * intros f' [= <-]. exact Hfn.
  - intros (o & name & He & Hf & Ht & Hb).
    destruct name as [|a name]; [discriminate|].
    rewrite (writeExtractedComments_without_banner _ _ _ (String a name) (banner o)).
    + apply write_sidecar_frame.
    + rewrite He. by apply comments_file_explicit.
    + by rewrite He.
    + destruct Hb as [Hb|(f & Hb & Hfn)]; [by left|]. right. eauto.
Qed.

End SidecarMethod.

(** ** The two predicates together *)

Section Classifier.
Context `{Host}.

(** A visitor whose predicates always answer. *)
Lemma visit_all_total (ex pr : Comment -> bool) (a : AstNode)
  (cs : list Comment) (sink : list string) :
  visit_all (visitor (fun _ c => Ok (ex c)) (fun _ c => Ok (pr c))) a cs sink
  = (Ok (map pr cs), (sink ++ map format_comment (List.filter ex cs))%list).
Proof.
  revert sink. induction cs as [|c cs IH]; intros sink; simpl.
  - by rewrite app_nil_r.
  - unfold visitor at 1. destruct (ex c); rewrite IH; simpl.
    + by rewrite <- app_assoc.
    + reflexivity.
Qed.

(** X20. When normalization fails.  Turning a spec into a function throws
    in one case only: the spec is a string other than [all] that the
    regular-expression engine rejects, and what is thrown is the engine's
    error.  Every other spec, [undefined] included, yields a function. *)
Theorem normalize_throws_iff (spec : Spec) (e : Exn) :
  normalize spec = Throw e <->
  exists pattern, spec = SStr pattern /\ pattern <> "all" /\
                  new_RegExp pattern = Throw e.
Proof.
  split.
  - destruct spec as [b|f|pattern|regex|]; simpl; try discriminate.
    destruct (String.eqb pattern "all") eqn:Hall; [discriminate|].
    apply String.eqb_neq in Hall.
    destruct (new_RegExp pattern) as [regex|e'] eqn:Hre; [discriminate|].
    intros [= <-]. eauto.
  - intros (pattern & -> & Hall & Hre). simpl.
    apply String.eqb_neq in Hall. by rewrite Hall, Hre.
Qed.

(** X21. The visitor built from two specs.  With [extract] the string [all]
    and [preserve] false, every comment goes to the array and none is kept
    inline; with [extract] false and [preserve] a regular expression
    without the [g] and [y] flags, none goes to the array and a comment is
    kept exactly when the expression matches its value (with one of these
    flags the expression remembers where the last match ended, and the
    answer for a comment depends on the comments before it); with [extract]
    the string [all] and a [preserve] that has no [test] method, the first
    comment is pushed and the call then throws; and when the [preserve]
    string is rejected by the engine, that error is the one thrown,
    whatever [extract] is. *)
Theorem classify_routes (a : AstNode) (cs : list Comment) (sink : list string)
  (regex : RegExp) :
  (exists v, classify (SBool false) (SStr "all") = Ok v /\
     visit_all v a cs sink
     = (Ok (map (fun _ => false) cs), (sink ++ map format_comment cs)%list)) /\
  (stateless regex = true ->
   exists v, classify (SRegExp regex) (SBool false) = Ok v /\
     visit_all v a cs sink
     = (Ok (map (fun c => RegExp_test regex (c_value c)) cs), sink)) /\
  (exists v e, classify SOther (SStr "all") = Ok v /\
     forall c, v a c sink = (Throw e, (sink ++ [format_comment c])%list)) /\
  (forall pattern extract e, pattern <> "all" ->
     new_RegExp pattern = Throw e ->
     classify (SStr pattern) extract = Throw e).
Proof.
  split; [|split; [|split]].
  - eexists. split; [reflexivity|].
    rewrite (visit_all_total (fun _ => true) (fun _ => false)).
    f_equal. f_equal. f_equal. induction cs as [|c l IH]; simpl; by f_equal.
  - intros _. eexists. split; [reflexivity|].
    rewrite (visit_all_total (fun _ => false)
               (fun c => RegExp_test regex (c_value c))).
    f_equal. replace (List.filter _ cs) with (@nil Comment).
    + by rewrite app_nil_r.
    + induction cs as [|c l IH]; simpl; done.
  - eexists _, _. split; [reflexivity|]. intros c. reflexivity.
  - intros pattern extract e Hall Hre. unfold classify. simpl.
    apply String.eqb_neq in Hall. by rewrite Hall, Hre.
Qed.

End Classifier.

Section ClassifierLink.
Context `{Host}.

(** [classify] is the second half of [_processExtractComments]. *)
Lemma processExtractComments_classify (opts : Options) (output : Output) :
  _processExtractComments opts output
  = ('(preserve, extract) ← resolve_conditions opts output;
     v ← classify preserve extract;
     mret ([], v)).
Proof.
  unfold _processExtractComments, classify.
  destruct (resolve_conditions opts output) as [[p e]|err]; [|reflexivity].
  simpl. destruct (normalize p); [|reflexivity].
  simpl. destruct (normalize e); reflexivity.
Qed.

End ClassifierLink.

(** ** Runs on the sample hosts *)

(** One asset object under two names, and a failing file between the two
    passes over it: the second pass reuses the output of the first and
    calls nothing. *)
Lemma processFile_second_pass_reuses_witness :
  let s := Sample.state [Sample.asset "var a = 1;"; Sample.asset "function("]
                        [("a.js", 0); ("bad.js", 1); ("b.js", 0)] in
  let s1 := (@_processFile Sample.host Sample.options "a.js" s).2 in
  let s1' := (forEach (@compile_file Sample.host Sample.options) ["bad.js"] s1).2 in
  exists out s2,
    @_processFile Sample.host Sample.options "b.js" s1' = (Ok tt, s2) /\
    assets s1 !! "a.js" = Some out /\
    assets s2 !! "b.js" = Some out /\
    trace s2 = trace s1' /\
    minify_calls (trace s2) = 2 /\
    errors s2 = errors s1'.
Proof.
  intros s s1 s1'.
  destruct (@processFile_second_pass_reuses Sample.host Sample.options
              "a.js" "b.js" ["bad.js"] 0 s s1)
    as (out & s2 & Hrun & Hout1 & Hout2 & _ & Htrace & Hcalls & _ & _ & Herrors & _);
    [vm_compute; reflexivity .. |].
  exists out, s2. fold s1' in Hrun, Htrace, Hcalls, Herrors.
  split; [exact Hrun|]. split; [exact Hout1|]. split; [exact Hout2|].
  split; [exact Htrace|]. split; [rewrite Hcalls; vm_compute; reflexivity|].
  exact Herrors.
Defined.

(** A file the minifier rejects by returning an [error]: nothing is
    recorded, and the asset is replaced by a [RawSource] without a
    value. *)
Lemma reported_failure_is_not_caught_witness :
  let s := Sample.state [Sample.mapped_asset "function("] [("bad.js", 0)] in
  let s' := (@compile_file Sample.strict_host Sample.options "bad.js" s).2 in
  errors s' = [] /\
  assets s' !! "bad.js" = Some 1 /\
  heap s' !! 1 = Some (mkObj RawSourceUndefined None) /\
  heap s' !! 0 = Some (mkObj (body (Sample.mapped_asset "function(")) (Some 1)).
Proof.
  intros s s'.
  destruct (@reported_failure_is_not_caught Sample.strict_host Sample.options)
    as (_ & Hreported & _).
  apply (Hreported "bad.js" s 0 (Sample.mapped_asset "function(")
           (Some "function(")
           (@_processSourceMap Sample.strict_host Sample.options 0 s).2
           (reported Sample.parse_error)); reflexivity.
Defined.

(** A second pass over the same file does not meet the same object: the
    name maps to the output of the first pass by then, and the output
    carries no marker.  With a consumer that rejects its missing map the
    pass fails, and the run records an error for a file it had processed;
    with one that accepts it the minifier is called again, on its own
    output, and the asset changes once more. *)
Lemma second_pass_over_same_file_counterexample :
  let s := Sample.state [Sample.mapped_asset "var a = 1;"] [("a.js", 0)] in
  let first host := @_processFile host Sample.options "a.js" s in
  let second host := @_processFile host Sample.options "a.js" (first host).2 in
  let run host := (@_compile host Sample.options
                     [mkChunk ["a.js"]; mkChunk ["a.js"]] s).2 in
  (first Sample.strict_host).1 = Ok tt /\
  minify_calls (trace (first Sample.strict_host).2) = 1 /\
  (second Sample.strict_host).1
  = Throw (mkExn None None (Some "Cannot read property 'sections' of null")
                 None (Some "TypeError")) /\
  trace (second Sample.strict_host).2
  = (trace (first Sample.strict_host).2
     ++ [CallSourceAndMap 1; NewSourceMapConsumer None])%list /\
  errors (run Sample.strict_host) = ["a.js from UglifyJs" ++ LF ++ "TypeError"] /\
  (first Sample.host).1 = Ok tt /\
  (second Sample.host).1 = Ok tt /\
  minify_calls (trace (second Sample.host).2) = 2 /\
  heap (second Sample.host).2 !! 1
  = Some (mkObj (RawSource "min:var a = 1;") (Some 2)) /\
  assets (second Sample.host).2 !! "a.js" = Some 2 /\
  heap (second Sample.host).2 !! 2
  = Some (mkObj (RawSource "min:min:var a = 1;") None) /\
  minify_calls (trace (run Sample.host)) = 2.
Proof. vm_compute. repeat split. Qed.

Lemma compile_leaves_other_files_witness :
  let s := Sample.state [Sample.asset "var a = 1;"; Sample.asset "body{}"]
                        [("a.js", 0); ("c.css", 1)] in
  let s' := (@_compile Sample.host Sample.options [mkChunk ["a.js"; "c.css"]] s).2 in
  assets s' !! "c.css" = Some 1 /\
  exists o', heap s' !! 1 = Some o' /\ body o' = body (Sample.asset "body{}").
Proof.
  intros s s'.
  destruct (@compile_leaves_other_files Sample.host Sample.options
              [mkChunk ["a.js"; "c.css"]] s "c.css") as [Hentry Hbody].
  - left. reflexivity.
  - split; [exact Hentry|]. apply (Hbody 1); reflexivity.
Defined.

Lemma compile_never_rewrites_objects_witness :
  let s := Sample.state [Sample.asset "var a = 1;"] [("a.js", 0)] in
  exists o', heap (@_compile Sample.host Sample.options [mkChunk ["a.js"]] s).2 !! 0
             = Some o' /\
             body o' = body (Sample.asset "var a = 1;").
Proof.
  intros s.
  destruct (@compile_never_rewrites_objects Sample.host Sample.options
              [mkChunk ["a.js"]] s 0 (Sample.asset "var a = 1;") eq_refl)
    as (o' & Hr & Hb & _).
  exists o'. split; assumption.
Defined.

Lemma compile_nothing_to_do_witness :
  let s := Sample.state [Sample.asset "body{}"] [("c.css", 0)] in
  @_compile Sample.host Sample.options [mkChunk ["c.css"]] s
  = (Ok tt, set_trace [CallCallback] s).
Proof.
  intros s.
  apply (@compile_nothing_to_do Sample.host Sample.options [mkChunk ["c.css"]] s).
  repeat constructor.
Defined.

Lemma compile_file_without_asset_witness :
  exists stack,
    @compile_file Sample.host Sample.options "gone.js" (Sample.state [] [])
    = (Ok tt, set_errors ["gone.js from UglifyJs" ++ LF ++ stack]
                         (Sample.state [] [])).
Proof.
  apply (@compile_file_without_asset Sample.host Sample.options "gone.js"
           (Sample.state [] [])).
  reflexivity.
Defined.

Lemma processFile_success_witness :
  let s := Sample.state [Sample.asset "var a = 1;"] [("a.js", 0)] in
  let s' := (@_processFile Sample.host Sample.options "a.js" s).2 in
  assets s' !! "a.js" = Some 1 /\
  heap s' !! 1 = Some (mkObj (RawSource "min:var a = 1;") None) /\
  @source_map Sample.host (heap s') 1 = Ok None.
Proof.
  intros s s'.
  destruct (@processFile_success Sample.host Sample.options "a.js" s 0
              (Sample.asset "var a = 1;") (Some "var a = 1;")
              (minified "min:var a = 1;")
              (Some "{}") (fun _ _ => mkOriginalPosition None None None))
    as (_ & Hassets & Hout & _ & _ & Hmap & _); try reflexivity.
  fold s' in Hassets, Hout, Hmap.
  split; [by rewrite Hassets|]. split; assumption.
Defined.

Lemma processSourceMap_separate_accessors_witness :
  let failure := mkExn None None (Some "no map") None None in
  let old := mkObj (HostSource (mkHostAsset (Ok "var a = 1;") (Throw failure) None))
                   None in
  @_processSourceMap Sample.host Sample.options 0 (Sample.state [old] [("a.js", 0)])
  = (Throw failure, set_trace [CallMap 0] (Sample.state [old] [("a.js", 0)])).
Proof.
  intros failure old.
  apply (@processSourceMap_separate_accessors Sample.host Sample.options 0
           (mkHostAsset (Ok "var a = 1;") (Throw failure) None) None
           (Sample.state [old] [("a.js", 0)])); reflexivity.
Defined.

Lemma rejected_map_blocks_minifier_witness :
  let s := Sample.state [mkObj (RawSource "var a = 1;") None] [("a.js", 0)] in
  let s' := (@compile_file Sample.strict_host Sample.options "a.js" s).2 in
  errors s' = ["a.js from UglifyJs" ++ LF ++ "TypeError"] /\
  minify_calls (trace s') = 0 /\ assets s' = assets s /\ heap s' = heap s.
Proof.
  intros s s'.
  apply (@rejected_map_blocks_minifier Sample.strict_host Sample.options "a.js" s
           0 (mkObj (RawSource "var a = 1;") None)
           (Some "var a = 1;") (Some "var a = 1;") None
           (mkExn None None (Some "Cannot read property 'sections' of null")
                  None (Some "TypeError"))); reflexivity.
Defined.

Lemma extraction_fails_every_fresh_file_witness :
  let s := Sample.state [Sample.asset "var a = 1;"] [("a.js", 0)] in
  let opts := with_extractComments (EBool true) Sample.options in
  let s' := (@compile_file Sample.host opts "a.js" s).2 in
  (exists msg, errors s' = [msg]) /\ assets s' = assets s /\ heap s' = heap s.
Proof.
  intros s opts s'.
  destruct (@extraction_fails_every_fresh_file Sample.host opts "a.js" s 0
              (Sample.asset "var a = 1;") eq_refl eq_refl eq_refl eq_refl)
    as (Herr & Hassets & Hheap & _).
  split; [exact Herr|]. split; assumption.
Defined.

Lemma second_pass_over_same_name_witness :
  let s := Sample.state [Sample.asset "var a = 1;"] [("a.js", 0)] in
  let s1 := (@_processFile Sample.host Sample.options "a.js" s).2 in
  exists out code,
    out <> 0 /\ assets s1 !! "a.js" = Some out /\
    heap s1 !! out = Some (mkObj (new_RawSource code) None) /\
    minify_calls (trace (@_processFile Sample.host Sample.options "a.js" s1).2)
    = S (minify_calls (trace s1)).
Proof.
  intros s s1.
  destruct (@second_pass_over_same_name Sample.host Sample.options "a.js" s s1 0
              (Sample.asset "var a = 1;"))
    as (out & code & Hne & Ha & Hr & _ & Hagain);
    [reflexivity .. |].
  exists out, code. split; [exact Hne|]. split; [exact Ha|]. split; [exact Hr|].
  apply (Hagain (fun _ _ => mkOriginalPosition None None None) eq_refl).
Defined.

Lemma sidecar_collects_batches_witness :
  let e := EObj (mkExtractObject None (FnStr "licenses.txt") BnFalse) in
  let opts := with_extractComments e Sample.options in
  exists s' r,
    forEach (@_writeExtractedComments Sample.host opts)
            [["/*! A */"]; ["//B"; "//C"]] (Sample.state [] [])
    = (Ok tt, s') /\
    assets s' !! "licenses.txt" = Some r /\
    @source_text Sample.host 8 (heap s') r
    = Ok (Some ("/*! A */" ++ LF ++ LF ++ "//B" ++ LF ++ LF ++ "//C" ++ LF)).
Proof.
  intros e opts.
  destruct (@sidecar_collects_batches Sample.host opts "licenses.txt"
              ["/*! A */"] [["//B"; "//C"]] (Sample.state [] []))
    as (s' & r & Hrun & Ha & Htext & _).
  - eexists. repeat split; reflexivity.
  - reflexivity.
  - vm_compute. reflexivity.
  - simpl. lia.
  - exists s', r. repeat split; assumption.
Defined.

(** A sidecar name that the asset object inherits: the test of line 207
    finds it, the inherited value is wrapped, and the asset that results
    cannot be read. *)
Example sidecar_under_inherited_name :
  let e := EObj (mkExtractObject None (FnStr "constructor") BnFalse) in
  let opts := with_extractComments e Sample.options in
  let s' := (@_writeExtractedComments Sample.host opts ["//B"]
               (Sample.state [] [])).2 in
  assets s' !! "constructor" = Some 1 /\
  heap s' !! 1
  = Some (mkObj (ConcatSource [CInherited "constructor"; CStr LF; CSrc 0]) None) /\
  @source_text Sample.host 8 (heap s') 1
  = Throw (@TypeError Sample.host "child.source is not a function").
Proof. vm_compute. repeat split. Qed.

Lemma sidecar_appends_to_existing_witness :
  let e := EObj (mkExtractObject None (FnStr "licenses.txt") BnFalse) in
  let opts := with_extractComments e Sample.options in
  let old := mkObj (RawSource "old notice") None in
  exists s' r,
    forEach (@_writeExtractedComments Sample.host opts) [["//B"]]
            (Sample.state [old] [("licenses.txt", 0)])
    = (Ok tt, s') /\
    assets s' !! "licenses.txt" = Some r /\
    @source_text Sample.host 8 (heap s') r
    = Ok (Some ("old notice" ++ LF ++ "//B" ++ LF)) /\
    heap s' !! 0 = Some old.
Proof.
  intros e opts old.
  destruct (@sidecar_appends_to_existing Sample.host opts "licenses.txt"
              [["//B"]] (Sample.state [old] [("licenses.txt", 0)]) 0 old
              "old notice")
    as (s' & r & Hrun & Ha & Htext & Hold & _).
  - eexists. repeat split; reflexivity.
  - reflexivity.
  - reflexivity.
  - reflexivity.
  - simpl. lia.
  - exists s', r. repeat split; assumption.
Defined.

Lemma writeExtractedComments_frame_witness :
  let opts := with_extractComments (EBool true) Sample.options in
  let s := Sample.state [Sample.asset "var a = 1;"] [("a.js", 0)] in
  let s' := (@_writeExtractedComments Sample.host opts ["//B"] s).2 in
  trace s' = trace s /\ assets s' !! "a.js" = Some 0 /\
  heap s' !! 0 = Some (Sample.asset "var a = 1;").
Proof.
  intros opts s s'.
  destruct (@writeExtractedComments_frame Sample.host opts ["//B"] s)
    as (Ht & _ & _ & Hplain & Hnames & _).
  subst s'. split; [exact Ht|]. split.
  - rewrite (Hnames "a.js"); [reflexivity|discriminate].
  - apply (Hplain 0 _ "var a = 1;"); reflexivity.
Defined.

Lemma writeExtractedComments_returns_iff_witness :
  let e := EObj (mkExtractObject None (FnStr "licenses.txt") BnFalse) in
  (@_writeExtractedComments Sample.host (with_extractComments e Sample.options)
     ["//B"] (Sample.state [] [])).1 = Ok tt.
Proof.
  intros e.
  apply (@writeExtractedComments_returns_iff Sample.host).
  eexists _, _. repeat split; try reflexivity. by left.
Defined.

Lemma normalize_throws_iff_witness :
  exists e, @normalize Sample.strict_host (SStr "(") = Throw e.
Proof.
  eexists.
  apply (@normalize_throws_iff Sample.strict_host).
  exists "(". split; [reflexivity|]. split; [discriminate|reflexivity].
Defined.

Lemma classify_routes_witness :
  (exists v,
     @classify Sample.strict_host (SRegExp (mkRegExp "^!" EmptyString))
               (SBool false) = Ok v /\
     visit_all v 0 [mkComment "comment2" "! MIT "; mkComment "comment1" " note";
                    mkComment "comment2" "! MIT "] ["//@license"]
     = (Ok [true; false; true], ["//@license"])) /\
  exists e, @classify Sample.strict_host (SStr "(") (SStr "all") = Throw e.
Proof.
  destruct (@classify_routes Sample.strict_host 0
              [mkComment "comment2" "! MIT "; mkComment "comment1" " note";
               mkComment "comment2" "! MIT "] ["//@license"]
              (mkRegExp "^!" EmptyString))
    as (_ & Hregex & _ & Hfirst).
  split.
  - destruct (Hregex eq_refl) as (v & Hv & Hrun).
    exists v. split; [exact Hv|]. rewrite Hrun. reflexivity.
  - eexists. apply Hfirst; [discriminate|reflexivity].
Defined.

Lemma processExeption_in_full_witness :
  let err := mkExn (Some 0) (Some 4) (Some "ignored") (Some "bad input") None in
  let consumer : Consumer :=
    fun _ _ => mkOriginalPosition (Some "original.js") (Some 10) (Some 2) in
  @_processExeption Sample.host err "a.js" (Some consumer) (Sample.state [] [])
  = (Ok tt, set_errors ["a.js from UglifyJs" ++ LF ++ "bad input"]
                       (Sample.state [] [])).
Proof.
  intros err consumer.
  destruct (@processExeption_in_full Sample.host err "a.js" (Some consumer)
              (Sample.state [] [])) as (_ & _ & Hzero).
  apply Hzero. by right.
Defined.
